(** * performance.cpp: the boost/cereal serialization benchmark

  A shallow embedding of [src/performance.cpp].  The program times how
  long two binary archive libraries need to save and to load a payload,
  averages over [numAverages] repetitions and prints the figures of the
  second library (cereal) relative to the first (boost).

  Conventions of the embedding:
  - [double] and [float] are IEEE-754 binary64 / binary32 values, taken
    from the specification of floating-point numbers of the standard
    library ([SpecFloat]); all arithmetic on them is the correctly
    rounded one.
  - A reading of the clock and a duration are tick counts; the
    difference of two readings is taken in [int64_t], with its
    wrap-around.  Sums of durations are integers of [Z], not wrapped.
  - [size_t] values are naturals of [N].
  - [std::ostringstream] is the bytes it holds and its put position,
    [std::istringstream] the bytes it reads.
  - [std::cout] is the list of items written to it.
  - The clock, the archive libraries and the random number engine are
    not part of the file; they are parameters of the sections below.
    A call into an archive library is a function of the stream and the
    payload it is given; in [Stateful] it is also a function of a state
    that the libraries keep from one call to the next, and the harness
    on libraries without state is an instance of that one
    ([stateless_test]).  Exceptions thrown by the libraries are not
    modelled. *)

From Stdlib Require Import ZArith NArith PArith List String Ascii Bool Lia.
From Stdlib Require Import Floats.SpecFloat.
From Stdlib Require Import Strings.Byte DecimalString.
Import ListNotations.

Local Open Scope Z_scope.

(** ** IEEE-754 doubles *)

Definition double : Type := spec_float.

Module Double.

Definition prec : Z := 53.
Definition emax : Z := 1024.

Definition div (x y : double) : double := SFdiv prec emax x y.
Definition mul (x y : double) : double := SFmul prec emax x y.

(** Conversion of an integer ([int64_t], [size_t], [int]) to [double]:
    round to nearest, ties to even. *)
Definition of_Z (z : Z) : double := binary_normalize prec emax z 0 false.

Definition of_N (n : N) : double := of_Z (Z.of_N n).

Definition valid (x : double) : bool := valid_binary prec emax x.

Definition is_nan (x : double) : bool :=
  match x with S754_nan => true | _ => false end.

Definition is_zero (x : double) : bool :=
  match x with S754_zero _ => true | _ => false end.

Definition is_finite (x : double) : bool :=
  match x with S754_zero _ | S754_finite _ _ _ => true | _ => false end.

Definition is_infinity (x : double) : bool :=
  match x with S754_infinity _ => true | _ => false end.

Definition zero : double := S754_zero false.
Definition one : double := Eval vm_compute in of_Z 1.
Definition two : double := Eval vm_compute in of_Z 2.
Definition nan : double := S754_nan.

End Double.


(** ** Streams and standard output *)

(** An output string stream: the bytes it holds and its put position. *)
Record ostringstream : Type := mkOstringstream {
  buffer : list byte;
  put_position : N
}.

(** [std::ostringstream os;] *)
Definition empty_ostringstream : ostringstream := mkOstringstream [] 0.

(** [os.tellp()], converted to [size_t] *)
Definition tellp (os : ostringstream) : N := put_position os.

(** [os.str()] *)
Definition str (os : ostringstream) : list byte := buffer os.

(** [os.write(bytes, n)] on a stream whose put position is at its end *)
Definition write (os : ostringstream) (bytes : list byte) : ostringstream :=
  mkOstringstream (buffer os ++ bytes)
                  (put_position os + N.of_nat (List.length bytes)).

(** An input string stream, [std::istringstream is(bytes)]: the bytes
    it was built from. *)
Definition istringstream : Type := list byte.

(** What is written to [std::cout]: a string, [std::endl], or a
  [boost::format] object with the arguments fed to it. *)
Inductive Output : Type :=
  | OutStr (s : string)
  | OutEndl
  | OutFormat (fmt : string) (args : list double).

(** ** The world: the clock and standard output *)

Record World : Type := mkWorld {
  clock_reads : N;          (* calls of high_resolution_clock::now() so far *)
  cout : list Output        (* written so far, oldest first *)
}.

(** State passing, over the world here and over the whole process in
    the driver. *)
Definition State (S A : Type) : Type := S -> A * S.

Definition ret {S A} (a : A) : State S A := fun s => (a, s).

Definition bind {S A B} (m : State S A) (k : A -> State S B) : State S B :=
  fun s => let (a, s') := m s in k a s'.

Definition M (A : Type) : Type := State World A.

Declare Scope harness_scope.
Delimit Scope harness_scope with harness.

Notation "x <- m ;; k" := (bind m (fun x => k))
  (at level 61, m at next level, right associativity) : harness_scope.
Notation "' p <- m ;; k" := (bind m (fun x => match x with p => k end))
  (at level 61, p pattern, m at next level, right associativity) : harness_scope.
Notation "m ;; k" := (bind m (fun _ => k))
  (at level 61, right associativity) : harness_scope.

Local Open Scope harness_scope.

Definition print (o : Output) : M unit :=
  fun w => (tt, mkWorld (clock_reads w) (cout w ++ [o])).

(** ** The archive adapters

  [save] receives the output stream by reference and the payload by
  const reference; [load] receives the input stream and a payload to
  fill in. *)

Record Archive (T : Type) : Type := mkArchive {
  save : ostringstream -> T -> ostringstream;
  load : istringstream -> T -> T
}.
Arguments mkArchive {T} _ _.
Arguments save {T} _ _ _.
Arguments load {T} _ _ _.

(** [struct binary { typedef boostBinary boost; typedef cerealBinary cereal; }]
  is one value of this record; [test] is generic in it. *)
Record Serialization (T : Type) : Type := mkSerialization {
  boost : Archive T;
  cereal : Archive T
}.
Arguments mkSerialization {T} _ _.
Arguments boost {T} _.
Arguments cereal {T} _.

(** Types with a default constructor ([T data;] in [loadData]). *)
Class DefaultConstructible (T : Type) : Type := default_value : T.

#[global] Instance vector_DefaultConstructible {A} : DefaultConstructible (list A) := [].

Inductive Library : Type := Boost | Cereal.

Definition Library_eqb (a b : Library) : bool :=
  match a, b with
  | Boost, Boost | Cereal, Cereal => true
  | _, _ => false
  end.

(** The calls [test] makes into the libraries, with what went in and
  what came out. *)
Inductive Call (T : Type) : Type :=
  | SaveCall (lib : Library) (data : T) (os : ostringstream) (ms : Z)
  | LoadCall (lib : Library) (src : istringstream) (loaded : T) (ms : Z).
Arguments SaveCall {T} _ _ _ _.
Arguments LoadCall {T} _ _ _ _.

Definition is_save {T} (lib : Library) (c : Call T) : bool :=
  match c with
  | SaveCall l _ _ _ => Library_eqb l lib
  | LoadCall _ _ _ _ => false
  end.

Definition is_load {T} (lib : Library) (c : Call T) : bool :=
  match c with
  | SaveCall _ _ _ _ => false
  | LoadCall l _ _ _ => Library_eqb l lib
  end.

Definition save_ms {T} (lib : Library) (c : Call T) : Z :=
  match c with
  | SaveCall l _ _ ms => if Library_eqb l lib then ms else 0
  | LoadCall _ _ _ _ => 0
  end.

Definition load_ms {T} (lib : Library) (c : Call T) : Z :=
  match c with
  | SaveCall _ _ _ _ => 0
  | LoadCall l _ _ ms => if Library_eqb l lib then ms else 0
  end.

Definition count {A} (p : A -> bool) (l : list A) : nat := List.length (filter p l).

Definition sum_by {A} (f : A -> Z) (l : list A) : Z :=
  fold_right (fun a acc => f a + acc) 0 l.

(** ** The timing harness *)

Definition tab : string := String (ascii_of_nat 9) EmptyString.

Definition save_format : string :=
  tab ++ "save | time: %06.4fms (%1.2f) size: %20.8fkb (%1.8f) total: %6.1fms".

Definition load_format : string :=
  tab ++ "load | time: %06.4fms (%1.2f) total: %6.1fms".

(** The local variables of [test] that live across the loop, together
  with the log of library calls. *)
Record Totals (T : Type) : Type := mkTotals {
  totalBoostSave : Z;
  totalBoostLoad : Z;
  totalCerealSave : Z;
  totalCerealLoad : Z;
  boostSize : N;
  cerealSize : N;
  calls : list (Call T)
}.
Arguments mkTotals {T} _ _ _ _ _ _ _.
Arguments totalBoostSave {T} _.
Arguments totalBoostLoad {T} _.
Arguments totalCerealSave {T} _.
Arguments totalCerealLoad {T} _.
Arguments boostSize {T} _.
Arguments cerealSize {T} _.
Arguments calls {T} _.

(** What [test] computes after the loop and prints, together with the
    log of the divisions it evaluates for that: dividend and divisor, in
    the order of the source. *)
Record Report (T : Type) : Type := mkReport {
  totals : Totals T;
  averageBoostSave : double;
  averageBoostLoad : double;
  averageCerealSave : double;
  averageCerealLoad : double;
  cerealSaveP : double;
  cerealLoadP : double;
  cerealSizeP : double;
  divisions : list (double * double)
}.
Arguments mkReport {T} _ _ _ _ _ _ _ _ _.
Arguments divisions {T} _.
Arguments totals {T} _.
Arguments averageBoostSave {T} _.
Arguments averageBoostLoad {T} _.
Arguments averageCerealSave {T} _.
Arguments averageCerealLoad {T} _.
Arguments cerealSaveP {T} _.
Arguments cerealLoadP {T} _.
Arguments cerealSizeP {T} _.

Section Harness.

(** [high_resolution_clock]: the reading of its k-th call, in ticks,
    and the number of ticks in a millisecond. *)
Variable now : N -> Z.
Variable ticks_per_ms : Z.

Definition clock_now : M Z :=
  fun w => (now (clock_reads w), mkWorld (N.succ (clock_reads w)) (cout w)).

(** [duration_cast<milliseconds>]: truncation toward zero. *)
Definition duration_cast_ms (ticks : Z) : Z := Z.quot ticks ticks_per_ms.

(** [now() - start]: the difference of two readings, a duration whose
    tick count is an [int64_t]. *)
Definition int64_wrap (z : Z) : Z := (z + 2 ^ 63) mod 2 ^ 64 - 2 ^ 63.

Definition int64_sub (x y : Z) : Z := int64_wrap (x - y).

Context {DataT : Type} `{DefaultConstructible DataT}.

Definition saveData (data : DataT)
    (saveFunction : ostringstream -> DataT -> ostringstream)
    (os : ostringstream) : M (Z * ostringstream) :=
  start <- clock_now ;;
  let os := saveFunction os data in
  stop <- clock_now ;;
  ret (duration_cast_ms (int64_sub stop start), os).

Definition loadData (dataStream : ostringstream)
    (loadFunction : istringstream -> DataT -> DataT) : M (DataT * Z) :=
  let data : DataT := default_value in
  let iss : istringstream := str dataStream in
  start <- clock_now ;;
  let data := loadFunction iss data in
  stop <- clock_now ;;
  ret (data, duration_cast_ms (int64_sub stop start)).

Variable SerializationT : Serialization DataT.

(** One pass through the body of the [for] loop of [test]. *)
Definition iteration (data : DataT) (validateData : bool)
    (t : Totals DataT) : M (Totals DataT) :=
  (* Boost *)
  let os : ostringstream := empty_ostringstream in
  '(saveResult, os) <- saveData data (save (boost SerializationT)) os ;;
  let totalBoostSave := totalBoostSave t + saveResult in
  let boostSize := if (boostSize t =? 0)%N then tellp os else boostSize t in
  '(loaded, loadMs) <- loadData os (load (boost SerializationT)) ;;
  let totalBoostLoad := totalBoostLoad t + loadMs in
  let log := calls t ++ [SaveCall Boost data os saveResult;
                         LoadCall Boost (str os) loaded loadMs] in
  (if validateData then ret tt (* TODO *) else ret tt) ;;
  (* Cereal *)
  let os : ostringstream := empty_ostringstream in
  '(saveResult, os) <- saveData data (save (cereal SerializationT)) os ;;
  let totalCerealSave := totalCerealSave t + saveResult in
  let cerealSize := if (cerealSize t =? 0)%N then tellp os else cerealSize t in
  '(loaded, loadMs) <- loadData os (load (cereal SerializationT)) ;;
  let totalCerealLoad := totalCerealLoad t + loadMs in
  let log := log ++ [SaveCall Cereal data os saveResult;
                     LoadCall Cereal (str os) loaded loadMs] in
  (if validateData then ret tt (* TODO *) else ret tt) ;;
  ret (mkTotals totalBoostSave totalBoostLoad totalCerealSave totalCerealLoad
                boostSize cerealSize log).

Definition initial_totals : Totals DataT := mkTotals 0 0 0 0 0%N 0%N [].

(** The [for] loop: [numAverages] passes. *)
Definition loop (data : DataT) (numAverages : N) (validateData : bool)
    (w : World) : Totals DataT * World :=
  N.iter numAverages (fun tw => iteration data validateData (fst tw) (snd tw))
         (initial_totals, w).

(** The figures computed after the loop. *)
Definition report_of (numAverages : N) (t : Totals DataT) : Report DataT :=
  (* Averages *)
  let averageBoostSave :=
    Double.div (Double.of_Z (totalBoostSave t)) (Double.of_N numAverages) in
  let averageBoostLoad :=
    Double.div (Double.of_Z (totalBoostLoad t)) (Double.of_N numAverages) in
  let averageCerealSave :=
    Double.div (Double.of_Z (totalCerealSave t)) (Double.of_N numAverages) in
  let averageCerealLoad :=
    Double.div (Double.of_Z (totalCerealLoad t)) (Double.of_N numAverages) in
  (* Percentages relative to boost *)
  let cerealSaveP := Double.div averageCerealSave averageBoostSave in
  let cerealLoadP := Double.div averageCerealLoad averageBoostLoad in
  let cerealSizeP :=
    Double.div (Double.of_N (cerealSize t)) (Double.of_N (boostSize t)) in
  mkReport t averageBoostSave averageBoostLoad averageCerealSave averageCerealLoad
           cerealSaveP cerealLoadP cerealSizeP
           [ (Double.of_Z (totalBoostSave t), Double.of_N numAverages);
             (Double.of_Z (totalBoostLoad t), Double.of_N numAverages);
             (Double.of_Z (totalCerealSave t), Double.of_N numAverages);
             (Double.of_Z (totalCerealLoad t), Double.of_N numAverages);
             (averageCerealSave, averageBoostSave);
             (averageCerealLoad, averageBoostLoad);
             (Double.of_N (cerealSize t), Double.of_N (boostSize t)) ].

Definition print_report (r : Report DataT) : M unit :=
  let t := totals r in
  print (OutStr "  Boost results:") ;; print OutEndl ;;
  print (OutFormat save_format
           [averageBoostSave r; Double.one;
            Double.div (Double.of_N (boostSize t)) (Double.of_Z 1024);
            Double.one; Double.of_Z (totalBoostSave t)]) ;;
  print OutEndl ;;
  print (OutFormat load_format
           [averageBoostLoad r; Double.one; Double.of_Z (totalBoostLoad t)]) ;;
  print OutEndl ;;
  print (OutStr "  Cereal results:") ;; print OutEndl ;;
  print (OutFormat save_format
           [averageCerealSave r; cerealSaveP r;
            Double.div (Double.of_N (cerealSize t)) (Double.of_Z 1024);
            cerealSizeP r; Double.of_Z (totalCerealSave t)]) ;;
  print OutEndl ;;
  print (OutFormat load_format
           [averageCerealLoad r; cerealLoadP r; Double.of_Z (totalCerealLoad t)]) ;;
  print OutEndl.

Definition test (name : string) (data : DataT) (numAverages : N)
    (validateData : bool) : M (Report DataT) :=
  print (OutStr "-----------------------------------") ;; print OutEndl ;;
  print (OutStr "Running test: ") ;; print (OutStr name) ;; print OutEndl ;;
  t <- loop data numAverages validateData ;;
  let r := report_of numAverages t in
  print_report r ;;
  ret r.

End Harness.

(** The calls of one pass of the loop, written out; [k] is the number of
    clock reads made before the pass. *)
Section Pass.

Variable now : N -> Z.
Variable ticks_per_ms : Z.
Context {DataT : Type} `{DefaultConstructible DataT}.
Variable S : Serialization DataT.
Variable data : DataT.

(** Elapsed milliseconds between the clock reads number [k] and [k+1]. *)
Definition elapsed_ms (k : N) : Z :=
  duration_cast_ms ticks_per_ms (int64_sub (now (N.succ k)) (now k)).

Definition pass_calls (k : N) : list (Call DataT) :=
  [ SaveCall Boost data (save (boost S) empty_ostringstream data) (elapsed_ms k);
    LoadCall Boost (str (save (boost S) empty_ostringstream data))
             (load (boost S) (str (save (boost S) empty_ostringstream data))
                   default_value)
             (elapsed_ms (k + 2));
    SaveCall Cereal data (save (cereal S) empty_ostringstream data)
             (elapsed_ms (k + 4));
    LoadCall Cereal (str (save (cereal S) empty_ostringstream data))
             (load (cereal S) (str (save (cereal S) empty_ostringstream data))
                   default_value)
             (elapsed_ms (k + 6)) ].

(** The archive [test] addresses as [SerializationT::boost] or
    [SerializationT::cereal]. *)
Definition archive_of (lib : Library) : Archive DataT :=
  match lib with
  | Boost => boost S
  | Cereal => cereal S
  end.

(** A logged call is faithful when it is the call the loop body makes:
    a save of [data] into a fresh stream, or a load from the bytes just
    saved into a default-constructed payload. *)
Definition faithful (c : Call DataT) : Prop :=
  match c with
  | SaveCall lib d os _ =>
      d = data /\ os = save (archive_of lib) empty_ostringstream data
  | LoadCall lib src loaded _ =>
      src = str (save (archive_of lib) empty_ostringstream data) /\
      loaded = load (archive_of lib) src default_value
  end.

(** What [test] prints before and after the loop. *)
Definition header (name : string) : list Output :=
  [ OutStr "-----------------------------------"; OutEndl;
    OutStr "Running test: "; OutStr name; OutEndl ].

Definition report_lines (r : Report DataT) : list Output :=
  [ OutStr "  Boost results:"; OutEndl;
    OutFormat save_format
      [averageBoostSave r; Double.one;
       Double.div (Double.of_N (boostSize (totals r))) (Double.of_Z 1024);
       Double.one; Double.of_Z (totalBoostSave (totals r))];
    OutEndl;
    OutFormat load_format
      [averageBoostLoad r; Double.one; Double.of_Z (totalBoostLoad (totals r))];
    OutEndl;
    OutStr "  Cereal results:"; OutEndl;
    OutFormat save_format
      [averageCerealSave r; cerealSaveP r;
       Double.div (Double.of_N (cerealSize (totals r))) (Double.of_Z 1024);
       cerealSizeP r; Double.of_Z (totalCerealSave (totals r))];
    OutEndl;
    OutFormat load_format
      [averageCerealLoad r; cerealLoadP r; Double.of_Z (totalCerealLoad (totals r))];
    OutEndl ].

(** The report [test] builds when the loop body never ran: every
    average is [0 / 0.0] and every ratio is [NaN / NaN] or [0 / 0.0]. *)
Definition empty_report : Report DataT :=
  mkReport initial_totals Double.nan Double.nan Double.nan Double.nan
           Double.nan Double.nan Double.nan
           [ (Double.zero, Double.zero); (Double.zero, Double.zero);
             (Double.zero, Double.zero); (Double.zero, Double.zero);
             (Double.nan, Double.nan); (Double.nan, Double.nan);
             (Double.zero, Double.zero) ].

End Pass.

(** ** Random values *)

Definition char_of_Z (z : Z) : ascii := ascii_of_N (Z.to_N (z mod 256)).

Definition Z_of_char (c : ascii) : Z := Z.of_N (N_of_ascii c).

(** [std::string s(n, ch)] with [n] an [int]: the count is converted to
    [size_t], so a negative [n] asks for more than [max_size()] characters
    and the constructor throws. *)
Fixpoint string_n (n : nat) (ch : ascii) : string :=
  match n with
  | O => EmptyString
  | Datatypes.S n' => String ch (string_n n' ch)
  end.

Definition string_of_count (n : Z) (ch : ascii) : option string :=
  if n <? 0 then None else Some (string_n (Z.to_nat n) ch).

Section RandomValue.

(** [std::mt19937] and the two distributions of [<random>] are library
    code: an engine state, and draws that return a value and the next
    state. *)
Variable mt19937 : Type.
Variable uniform_int_distribution : Z -> Z -> mt19937 -> Z * mt19937.
Variable uniform_real_distribution : double -> double -> mt19937 -> double * mt19937.

(** [random_value<T>] for a floating point [T] *)
Definition random_value_floating_point (gen : mt19937) : double * mt19937 :=
  uniform_real_distribution (Double.of_Z (-10000)) (Double.of_Z 10000) gen.

(** [random_value<T>] for an integral [T] with the given
    [numeric_limits<T>::lowest()] and [max()] *)
Definition random_value_integral (lowest max : Z) (gen : mt19937) : Z * mt19937 :=
  uniform_int_distribution lowest max gen.

(** [for(char & c : s) c = std::uniform_int_distribution<char>(lo, hi)(gen);]
    every character of [s] is overwritten, first to last, by a fresh
    draw. *)
Fixpoint fill_uniform (lo hi : ascii) (s : string) (gen : mt19937) : string * mt19937 :=
  match s with
  | EmptyString => (EmptyString, gen)
  | String _ rest =>
      let (c, gen) := uniform_int_distribution (Z_of_char lo) (Z_of_char hi) gen in
      let (rest, gen) := fill_uniform lo hi rest gen in
      (String (char_of_Z c) rest, gen)
  end.

(** [random_value<std::string>]; [None] when the string constructor
    throws. *)
Definition random_value_string (gen : mt19937) : option string * mt19937 :=
  let (n, gen) := uniform_int_distribution 3 30 gen in
  match string_of_count n " " with
  | None => (None, gen)
  | Some s => let (s, gen) := fill_uniform " " "~" s gen in (Some s, gen)
  end.

(** [random_basic_string<C>], at [C = char] *)
Definition random_basic_string (gen : mt19937) : option string * mt19937 :=
  let (n, gen) := uniform_int_distribution 3 30 gen in
  match string_of_count n " " with
  | None => (None, gen)
  | Some s => let (s, gen) := fill_uniform " " "~" s gen in (Some s, gen)
  end.

(** [random_binary_string<N>] *)
Definition random_binary_string (N : N) (gen : mt19937) : string * mt19937 :=
  fill_uniform "0" "1" (string_n (N.to_nat N) " ") gen.

(** The engine state after [k] draws of a character between [lo] and
    [hi]. *)
Fixpoint after_chars (lo hi : ascii) (k : nat) (gen : mt19937) : mt19937 :=
  match k with
  | O => gen
  | Datatypes.S k' =>
      snd (uniform_int_distribution (Z_of_char lo) (Z_of_char hi)
             (after_chars lo hi k' gen))
  end.

End RandomValue.

(** ** The payload types of the driver *)

Definition float : Type := spec_float.
Definition uint8_t : Type := Z.

Module PoD.

Record PoDStruct : Type := mkPoDStruct {
  a : Z;        (* int32_t *)
  b : Z;        (* int64_t *)
  c : float;
  d : double
}.

Record PoDChild : Type := mkPoDChild {
  base : PoDStruct;
  v : list float
}.

End PoD.

(** [std::vector<T> data(s)]: [s] value-initialized elements. *)
Definition vector_n {A} (s : N) (x : A) : list A := repeat x (N.to_nat s).

(** Value-initialization of [PoDStruct], which has no constructor. *)
Definition PoDStruct_zero : PoD.PoDStruct :=
  PoD.mkPoDStruct 0 0 (S754_zero false) (S754_zero false).

(** [PoDChild() : v(1024)]: the constructor fills [v] and leaves the
    base sub-object as the storage holds it. *)
Definition PoDChild_ctor (storage : PoD.PoDStruct) : PoD.PoDChild :=
  PoD.mkPoDChild storage (vector_n 1024 (S754_zero false)).

Inductive Payload : Type :=
| VectorDouble (data : list double)
| VectorUInt8 (data : list uint8_t)
| VectorPoDStruct (data : list PoD.PoDStruct)
| VectorPoDChild (data : list PoD.PoDChild).

(** One call of [test] by the driver. *)
Record Invocation : Type := mkInvocation {
  inv_name : string;
  inv_data : Payload;
  inv_numAverages : N;
  inv_validateData : bool
}.

(** [int] multiplication (32 bits, two's complement) and the conversion
    of an [int] argument to [size_t] (64 bits). *)
Definition int_mul (x y : Z) : Z := (x * y + 2 ^ 31) mod 2 ^ 32 - 2 ^ 31.

Definition to_size_t (z : Z) : N := Z.to_N (z mod 2 ^ 64).

(** [name << s] for a [size_t]: decimal digits. *)
Definition string_of_size_t (s : N) : string :=
  DecimalString.NilZero.string_of_uint (N.to_uint s).

(** ** The driver *)

Section Driver.

Variable now : N -> Z.
Variable ticks_per_ms : Z.

Variable mt19937 : Type.
Variable seed_mt19937 : Z -> mt19937.
Variable uniform_int_distribution : Z -> Z -> mt19937 -> Z * mt19937.
Variable uniform_real_distribution : double -> double -> mt19937 -> double * mt19937.

(** [struct binary], at the four payload types. *)
Variable binary_double : Serialization (list double).
Variable binary_uint8 : Serialization (list uint8_t).
Variable binary_PoDStruct : Serialization (list PoD.PoDStruct).
Variable binary_PoDChild : Serialization (list PoD.PoDChild).

(** What the storage of a fresh [PoDChild] holds in its base sub-object. *)
Variable uninitialized : PoD.PoDStruct.

(** The state of the process: the world, the engine [gen], and two
    logs, of the values drawn by [rngC] / [rngD] and of the calls of
    [test]. *)
Record Process : Type := mkProcess {
  world : World;
  gen : mt19937;
  random_values : N;
  invocations : list Invocation
}.

Definition P (A : Type) : Type := State Process A.

(** [auto rngC = [&](){ return random_value<uint8_t>(gen); };] *)
Definition rngC : P uint8_t :=
  fun p =>
    let (x, g) := random_value_integral mt19937 uniform_int_distribution 0 255 (gen p) in
    (x, mkProcess (world p) g (N.succ (random_values p)) (invocations p)).

(** [auto rngD = [&](){ return random_value<double>(gen); };] *)
Definition rngD : P double :=
  fun p =>
    let (x, g) := random_value_floating_point mt19937 uniform_real_distribution (gen p) in
    (x, mkProcess (world p) g (N.succ (random_values p)) (invocations p)).

(** [for( auto & d : data ) d = rng();] *)
Fixpoint assign_each {A} (rng : P A) (data : list A) : P (list A) :=
  match data with
  | [] => ret []
  | _ :: rest =>
      x <- rng ;;
      rest <- assign_each rng rest ;;
      ret (x :: rest)
  end.

(** [test<binary>( name.str(), data )], with the default arguments
    [numAverages = 10] and [validateData = false]. *)
Definition call_test {DataT} `{DefaultConstructible DataT}
    (binary : Serialization DataT) (view : DataT -> Payload)
    (name : string) (data : DataT) : P unit :=
  fun p =>
    let (_, w) := test now ticks_per_ms binary name data 10%N false (world p) in
    (tt, mkProcess w (gen p) (random_values p)
           (invocations p ++ [mkInvocation name (view data) 10%N false])).

Definition vectorDoubleTest (s : N) (randomize : bool) : P unit :=
  let name := ("Vector(double) size " ++ string_of_size_t s)%string in
  let data : list double := vector_n s (S754_zero false) in
  data <- (if randomize then assign_each rngD data else ret data) ;;
  call_test binary_double VectorDouble name data.

Definition vectorCharTest (s : N) (randomize : bool) : P unit :=
  let name := ("Vector(uint8_t) size " ++ string_of_size_t s)%string in
  let data : list uint8_t := vector_n s 0 in
  data <- (if randomize then assign_each rngC data else ret data) ;;
  call_test binary_uint8 VectorUInt8 name data.

Definition vectorPoDStructTest (s : N) : P unit :=
  let name := ("Vector(PoDStruct) size " ++ string_of_size_t s)%string in
  let data : list PoD.PoDStruct := vector_n s PoDStruct_zero in
  call_test binary_PoDStruct VectorPoDStruct name data.

Definition vectorPoDChildTest (s : N) : P unit :=
  let name := ("Vector(PoDChild) size " ++ string_of_size_t s)%string in
  let data : list PoD.PoDChild := vector_n s (PoDChild_ctor uninitialized) in
  call_test binary_PoDChild VectorPoDChild name data.

(** [main]; [rd] is the value [std::random_device] returns.  The result
    is the exit code. *)
Definition main_body : P Z :=
  let randomize := false in
  vectorDoubleTest (to_size_t 1) randomize ;;
  vectorDoubleTest (to_size_t 16) randomize ;;
  vectorDoubleTest (to_size_t 1024) randomize ;;
  vectorDoubleTest (to_size_t (int_mul 1024 1024)) randomize ;;
  vectorCharTest (to_size_t (int_mul (int_mul 1024 1024) 1024)) randomize ;;
  vectorPoDStructTest (to_size_t 1) ;;
  vectorPoDStructTest (to_size_t 64) ;;
  vectorPoDStructTest (to_size_t 1024) ;;
  vectorPoDStructTest (to_size_t (int_mul 1024 1024)) ;;
  vectorPoDStructTest (to_size_t (int_mul (int_mul 1024 1024) 64)) ;;
  vectorPoDChildTest (to_size_t (int_mul 1024 64)) ;;
  ret 0.

Definition main (rd : Z) (w : World) : Z * Process :=
  main_body (mkProcess w (seed_mt19937 rd) 0%N []).

End Driver.

(** ** Concrete libraries, clocks and engines

    Small stand-ins for the parameters above, used to run the harness on
    concrete inputs. *)

Module Fixture.

Definition byte_of_uint8 (z : uint8_t) : byte :=
  match Byte.of_N (Z.to_N (z mod 256)) with
  | Some x => x
  | None => x00
  end.

Definition uint8_of_byte (x : byte) : uint8_t := Z.of_N (Byte.to_N x).

(** One byte per element, nothing else. *)
Definition raw : Archive (list uint8_t) :=
  mkArchive (fun os data => write os (map byte_of_uint8 data))
            (fun src _ => map uint8_of_byte src).

(** A two-byte header, then one byte per element. *)
Definition framed : Archive (list uint8_t) :=
  mkArchive (fun os data => write (write os [x16; x00]) (map byte_of_uint8 data))
            (fun src _ => map uint8_of_byte (skipn 2 src)).

(** Saves like [raw]; its [load] reads nothing and leaves the payload as
    it was constructed. *)
Definition forgetful : Archive (list uint8_t) :=
  mkArchive (save raw) (fun _ data => data).

Definition binary : Serialization (list uint8_t) := mkSerialization framed raw.
Definition binary_raw : Serialization (list uint8_t) := mkSerialization raw raw.
Definition binary_forgetful : Serialization (list uint8_t) :=
  mkSerialization forgetful forgetful.

(** A nanosecond clock. *)
Definition ns_per_ms : Z := 1000000.

(** A clock that does not advance between reads: every operation takes
    less than a tick. *)
Definition frozen (k : N) : Z := 0.

(** A clock on which, in every pass, the boost save takes 1 ms, the
    boost load 2 ms, the cereal save 2 ms and the cereal load 4 ms. *)
Definition paced (k : N) : Z :=
  ns_per_ms * (9 * Z.of_N (k / 8) +
               match (k mod 8)%N with
               | 0%N => 0
               | 1%N | 2%N => 1
               | 3%N | 4%N => 3
               | 5%N | 6%N => 5
               | _ => 9
               end).

Definition start : World := mkWorld 0 [].

(** A linear congruential engine. *)
Definition lcg : Type := Z.

Definition lcg_next (g : lcg) : lcg := (g * 1103515245 + 12345) mod 2 ^ 31.

Definition lcg_uniform_int (lo hi : Z) (g : lcg) : Z * lcg :=
  (lo + g mod (hi - lo + 1), lcg_next g).

Definition lcg_uniform_real (lo hi : double) (g : lcg) : double * lcg :=
  (lo, lcg_next g).

End Fixture.

(** ** Observations on a run *)

(** The payloads handed to [save], in call order. *)
Definition saved_payloads {T} (l : list (Call T)) : list T :=
  flat_map (fun c => match c with
                     | SaveCall _ d _ _ => [d]
                     | LoadCall _ _ _ _ => []
                     end) l.

(** The payloads that came back from [load], in call order. *)
Definition loaded_payloads {T} (l : list (Call T)) : list T :=
  flat_map (fun c => match c with
                     | SaveCall _ _ _ _ => []
                     | LoadCall _ _ d _ => [d]
                     end) l.

Definition is_format (o : Output) : bool :=
  match o with
  | OutFormat _ _ => true
  | _ => false
  end.

(** No figures were written to standard output. *)
Definition reports_nothing (w : World) : Prop := filter is_format (cout w) = [].

(** No division of the report had a zero divisor. *)
Definition zero_divisor (xy : double * double) : bool := Double.is_zero (snd xy).

Definition divisions_guarded {T} (r : Report T) : Prop :=
  existsb zero_divisor (divisions r) = false.

(** The payloads of element type [double] or [uint8_t] among the calls
    of [test]. *)
Definition is_scalar (i : Invocation) : bool :=
  match inv_data i with
  | VectorDouble _ | VectorUInt8 _ => true
  | _ => false
  end.

Definition scalar_payloads (l : list Invocation) : list Payload :=
  map inv_data (filter is_scalar l).

Definition all_zero (x : Payload) : Prop :=
  match x with
  | VectorDouble l => Forall (eq (S754_zero false)) l
  | VectorUInt8 l => Forall (eq 0) l
  | _ => True
  end.



(** The benchmark matrix, in the order of [main]. *)
Definition benchmark_matrix (uninitialized : PoD.PoDStruct) : list Invocation :=
  [ mkInvocation "Vector(double) size 1"
      (VectorDouble (vector_n 1 (S754_zero false))) 10 false;
    mkInvocation "Vector(double) size 16"
      (VectorDouble (vector_n 16 (S754_zero false))) 10 false;
    mkInvocation "Vector(double) size 1024"
      (VectorDouble (vector_n 1024 (S754_zero false))) 10 false;
    mkInvocation "Vector(double) size 1048576"
      (VectorDouble (vector_n 1048576 (S754_zero false))) 10 false;
    mkInvocation "Vector(uint8_t) size 1073741824"
      (VectorUInt8 (vector_n 1073741824 0)) 10 false;
    mkInvocation "Vector(PoDStruct) size 1"
      (VectorPoDStruct (vector_n 1 PoDStruct_zero)) 10 false;
    mkInvocation "Vector(PoDStruct) size 64"
      (VectorPoDStruct (vector_n 64 PoDStruct_zero)) 10 false;
    mkInvocation "Vector(PoDStruct) size 1024"
      (VectorPoDStruct (vector_n 1024 PoDStruct_zero)) 10 false;
    mkInvocation "Vector(PoDStruct) size 1048576"
      (VectorPoDStruct (vector_n 1048576 PoDStruct_zero)) 10 false;
    mkInvocation "Vector(PoDStruct) size 67108864"
      (VectorPoDStruct (vector_n 67108864 PoDStruct_zero)) 10 false;
    mkInvocation "Vector(PoDChild) size 65536"
      (VectorPoDChild (vector_n 65536 (PoDChild_ctor uninitialized))) 10 false ].

(** A step [m] of the driver, started in [p], returns [a], appends
    [invs] to the log of calls of [test], reads the clock [reads] times
    and leaves the engine and the count of random values alone. *)
Definition runs {mt19937 A} (m : State (Process mt19937) A) (p : Process mt19937)
    (a : A) (invs : list Invocation) (reads : N) : Prop :=
  fst (m p) = a /\
  gen _ (snd (m p)) = gen _ p /\
  random_values _ (snd (m p)) = random_values _ p /\
  invocations _ (snd (m p)) = invocations _ p ++ invs /\
  clock_reads (world _ (snd (m p))) = (clock_reads (world _ p) + reads)%N.


(** The payloads of element type [double] or [uint8_t] of the benchmark
    matrix. *)
Definition scalar_matrix : list Payload :=
  [ VectorDouble (vector_n 1 (S754_zero false));
    VectorDouble (vector_n 16 (S754_zero false));
    VectorDouble (vector_n 1024 (S754_zero false));
    VectorDouble (vector_n 1048576 (S754_zero false));
    VectorUInt8 (vector_n 1073741824 0) ].

(** ** Further observations on the harness *)

Section Passes.

Variable now : N -> Z.
Variable ticks_per_ms : Z.
Context {DataT : Type} `{DefaultConstructible DataT}.
Variable S : Serialization DataT.
Variable data : DataT.

(** The calls of [n] consecutive passes of the loop, the first of which
    starts after [k0] clock reads. *)
Definition passes_calls (k0 : N) (n : nat) : list (Call DataT) :=
  flat_map (fun i => pass_calls now ticks_per_ms S data (k0 + 8 * N.of_nat i))
           (seq 0 n).

End Passes.

(** A clock that never runs backwards. *)
Definition monotone (now : N -> Z) : Prop := forall k : N, now k <= now (N.succ k).

(** A clock on which less than a millisecond passes between any two
    consecutive reads. *)
Definition sub_millisecond (now : N -> Z) (ticks_per_ms : Z) : Prop :=
  forall k : N, 0 <= now (N.succ k) - now k < ticks_per_ms.

(** The archive gives back [data] when it loads, into a
    default-constructed payload, what it saved into an empty stream. *)
Definition round_trips {T} `{DefaultConstructible T} (a : Archive T) (data : T) : Prop :=
  load a (str (save a empty_ostringstream data)) default_value = data.

(** A nanosecond clock on which every read comes 1.5 ms after the one
    before. *)
Definition steady (k : N) : Z := 1500000 * Z.of_N k.

(** ** Serialization of the record types

    [serialize] is a template in the archive: [ar & x] hands the field
    [x] to the archive by reference.  An archive is given here by what
    [&] does at each field type: from the archive and the field as they
    are to the archive and the field as they are left, or nothing when
    the archive throws. *)

Record ArchiveOps (Ar : Type) : Type := mkArchiveOps {
  amp_int32 : Ar -> Z -> option (Ar * Z);
  amp_int64 : Ar -> Z -> option (Ar * Z);
  amp_float : Ar -> float -> option (Ar * float);
  amp_double : Ar -> double -> option (Ar * double);
  amp_vector_float : Ar -> list float -> option (Ar * list float)
}.
Arguments mkArchiveOps {Ar} _ _ _ _ _.
Arguments amp_int32 {Ar} _ _ _.
Arguments amp_int64 {Ar} _ _ _.
Arguments amp_float {Ar} _ _ _.
Arguments amp_double {Ar} _ _ _.
Arguments amp_vector_float {Ar} _ _ _.

Definition obind {A B} (m : option A) (k : A -> option B) : option B :=
  match m with
  | Some a => k a
  | None => None
  end.

Declare Scope archive_scope.
Delimit Scope archive_scope with archive.

Notation "' p <- m ;; k" := (obind m (fun x => match x with p => k end))
  (at level 61, p pattern, m at next level, right associativity) : archive_scope.

Section Serialize.

Context {Ar : Type}.
Variable ops : ArchiveOps Ar.

Local Open Scope archive_scope.

(** [PoDStruct::serialize( Archive & ar )]: [ar & a & b & c & d;] *)
Definition PoDStruct_serialize (ar : Ar) (this : PoD.PoDStruct)
    : option (Ar * PoD.PoDStruct) :=
  '(ar, a) <- amp_int32 ops ar (PoD.a this) ;;
  '(ar, b) <- amp_int64 ops ar (PoD.b this) ;;
  '(ar, c) <- amp_float ops ar (PoD.c this) ;;
  '(ar, d) <- amp_double ops ar (PoD.d this) ;;
  Some (ar, PoD.mkPoDStruct a b c d).

(** [PoDStruct::serialize( Archive & ar, const unsigned int version )] *)
Definition PoDStruct_serialize_version (ar : Ar) (version : N)
    (this : PoD.PoDStruct) : option (Ar * PoD.PoDStruct) :=
  '(ar, a) <- amp_int32 ops ar (PoD.a this) ;;
  '(ar, b) <- amp_int64 ops ar (PoD.b this) ;;
  '(ar, c) <- amp_float ops ar (PoD.c this) ;;
  '(ar, d) <- amp_double ops ar (PoD.d this) ;;
  Some (ar, PoD.mkPoDStruct a b c d).

(** [PoDChild::serialize( Archive & ar )]:
    [ar & static_cast<PoDStruct>( *this ); ar & v;]
    The cast makes a temporary copy of the base sub-object; the archive
    is handed the copy, serializes it as a [PoDStruct], and the copy is
    dropped. *)
Definition PoDChild_serialize (ar : Ar) (this : PoD.PoDChild)
    : option (Ar * PoD.PoDChild) :=
  let temporary : PoD.PoDStruct := PoD.base this in
  '(ar, _) <- PoDStruct_serialize ar temporary ;;
  '(ar, v) <- amp_vector_float ops ar (PoD.v this) ;;
  Some (ar, PoD.mkPoDChild (PoD.base this) v).

(** [PoDChild::serialize( Archive & ar, const unsigned int version )]:
    [ar & boost::serialization::base_object<PoDStruct>( *this ); ar & v;]
    [base_object] is a reference to the base sub-object, which the
    archive serializes as a [PoDStruct] of class version
    [base_version]. *)
Definition PoDChild_serialize_version (base_version : N) (ar : Ar) (version : N)
    (this : PoD.PoDChild) : option (Ar * PoD.PoDChild) :=
  '(ar, base) <- PoDStruct_serialize_version ar base_version (PoD.base this) ;;
  '(ar, v) <- amp_vector_float ops ar (PoD.v this) ;;
  Some (ar, PoD.mkPoDChild base v).

End Serialize.

(** *** Archives over a stream

    A binary archive writes each field to its stream, or reads it back,
    by an encoding of its own.  [enc] gives the stream elements of a
    value, [dec] takes a value off the front of a stream. *)

Record Codec (B F : Type) : Type := mkCodec {
  enc : F -> list B;
  dec : list B -> option (F * list B)
}.
Arguments mkCodec {B F} _ _.
Arguments enc {B F} _ _.
Arguments dec {B F} _ _.

(** What is written can be read back, whatever follows it. *)
Definition lawful {B F} (c : Codec B F) : Prop :=
  forall (x : F) (rest : list B), dec c (enc c x ++ rest) = Some (x, rest).

Record Codecs (B : Type) : Type := mkCodecs {
  codec_int32 : Codec B Z;
  codec_int64 : Codec B Z;
  codec_float : Codec B float;
  codec_double : Codec B double;
  codec_vector_float : Codec B (list float)
}.
Arguments mkCodecs {B} _ _ _ _ _.
Arguments codec_int32 {B} _.
Arguments codec_int64 {B} _.
Arguments codec_float {B} _.
Arguments codec_double {B} _.
Arguments codec_vector_float {B} _.

Definition all_lawful {B} (cs : Codecs B) : Prop :=
  lawful (codec_int32 cs) /\ lawful (codec_int64 cs) /\
  lawful (codec_float cs) /\ lawful (codec_double cs) /\
  lawful (codec_vector_float cs).

(** An output archive: [ar & x] appends the encoding of [x] to what was
    written and leaves [x] alone. *)
Definition write_field {B F} (c : Codec B F) (ar : list B) (x : F) : option (list B * F) :=
  Some (ar ++ enc c x, x).

Definition output_archive {B} (cs : Codecs B) : ArchiveOps (list B) :=
  mkArchiveOps (write_field (codec_int32 cs)) (write_field (codec_int64 cs))
               (write_field (codec_float cs)) (write_field (codec_double cs))
               (write_field (codec_vector_float cs)).

(** An input archive: [ar & x] takes a value off the front of what is
    left to read and stores it in [x]; it throws when there is none. *)
Definition read_field {B F} (c : Codec B F) (ar : list B) (x : F) : option (list B * F) :=
  match dec c ar with
  | Some (y, rest) => Some (rest, y)
  | None => None
  end.

Definition input_archive {B} (cs : Codecs B) : ArchiveOps (list B) :=
  mkArchiveOps (read_field (codec_int32 cs)) (read_field (codec_int64 cs))
               (read_field (codec_float cs)) (read_field (codec_double cs))
               (read_field (codec_vector_float cs)).

(** The stream elements written for a [PoDStruct] and for a [PoDChild]. *)
Definition PoDStruct_bytes {B} (cs : Codecs B) (x : PoD.PoDStruct) : list B :=
  enc (codec_int32 cs) (PoD.a x) ++ enc (codec_int64 cs) (PoD.b x) ++
  enc (codec_float cs) (PoD.c x) ++ enc (codec_double cs) (PoD.d x).

Definition PoDChild_bytes {B} (cs : Codecs B) (x : PoD.PoDChild) : list B :=
  PoDStruct_bytes cs (PoD.base x) ++ enc (codec_vector_float cs) (PoD.v x).

(** A stream of typed fields, one element per field. *)
Module Fields.

Inductive Field : Type :=
| Int32 (x : Z)
| Int64 (x : Z)
| Float (x : float)
| Double (x : double)
| VectorFloat (x : list float).

Definition int32 : Codec Field Z :=
  mkCodec (fun x => [Int32 x])
          (fun s => match s with Int32 x :: rest => Some (x, rest) | _ => None end).

Definition int64 : Codec Field Z :=
  mkCodec (fun x => [Int64 x])
          (fun s => match s with Int64 x :: rest => Some (x, rest) | _ => None end).

Definition float32 : Codec Field float :=
  mkCodec (fun x => [Float x])
          (fun s => match s with Float x :: rest => Some (x, rest) | _ => None end).

Definition float64 : Codec Field double :=
  mkCodec (fun x => [Double x])
          (fun s => match s with Double x :: rest => Some (x, rest) | _ => None end).

Definition vector_float : Codec Field (list float) :=
  mkCodec (fun x => [VectorFloat x])
          (fun s => match s with VectorFloat x :: rest => Some (x, rest) | _ => None end).

Definition codecs : Codecs Field :=
  mkCodecs int32 int64 float32 float64 vector_float.

End Fields.

(** A record and a derived record to save. *)
Definition sample_PoDStruct : PoD.PoDStruct :=
  PoD.mkPoDStruct 7 (-9) (S754_zero true) Double.one.

Definition sample_PoDChild : PoD.PoDChild :=
  PoD.mkPoDChild sample_PoDStruct [S754_zero false; S754_infinity true].

(** ** The output of the driver *)

(** Blocks of output, one per test: the header with the test's name,
    then the body given for it. *)
Definition blocks (names : list string) (bodies : list (list Output)) : list Output :=
  flat_map (fun nb => header (fst nb) ++ snd nb) (combine names bodies).

(** A step [m] of the driver, started in [p], appends to standard
    output one block per name in [names], each with a body of twelve
    items. *)
Definition emits {mt19937 A} (m : State (Process mt19937) A) (p : Process mt19937)
    (names : list string) : Prop :=
  exists bodies : list (list Output),
    List.length bodies = List.length names /\
    Forall (fun b => List.length b = 12%nat) bodies /\
    cout (world _ (snd (m p))) = cout (world _ p) ++ blocks names bodies.

(** The names of the tests of the benchmark matrix, in order. *)
Definition matrix_names : list string :=
  [ "Vector(double) size 1"; "Vector(double) size 16";
    "Vector(double) size 1024"; "Vector(double) size 1048576";
    "Vector(uint8_t) size 1073741824";
    "Vector(PoDStruct) size 1"; "Vector(PoDStruct) size 64";
    "Vector(PoDStruct) size 1024"; "Vector(PoDStruct) size 1048576";
    "Vector(PoDStruct) size 67108864";
    "Vector(PoDChild) size 65536" ]%string.

(** ** Successive draws *)

Section Draws.

Variable mt19937 : Type.
Variable uniform_int_distribution : Z -> Z -> mt19937 -> Z * mt19937.



End Draws.

(** ** The harness on adapters that keep state

    [saveData], [loadData] and [test] receive the adapters as
    [std::function] values, and a callable may keep state from one call
    to the next.  Here the adapters act on a state [L] of their own,
    which every call may read and change; the harness is the same code,
    run on the world together with that state. *)

Module Stateful.

Record Archive (L T : Type) : Type := mkArchive {
  save : L -> ostringstream -> T -> L * ostringstream;
  load : L -> istringstream -> T -> L * T
}.
Arguments mkArchive {L T} _ _.
Arguments save {L T} _ _ _ _.
Arguments load {L T} _ _ _ _.

Record Serialization (L T : Type) : Type := mkSerialization {
  boost : Archive L T;
  cereal : Archive L T
}.
Arguments mkSerialization {L T} _ _.
Arguments boost {L T} _.
Arguments cereal {L T} _.

(** State passing over the world and the state of the adapters. *)
Definition H (L A : Type) : Type := State (World * L) A.

(** A step that concerns the clock or standard output only. *)
Definition in_world {L A} (m : M A) : H L A :=
  fun s => let (a, w) := m (fst s) in (a, (w, snd s)).

(** The call of an adapter. *)
Definition invoke {L A} (f : L -> L * A) : H L A :=
  fun s => let (l, a) := f (snd s) in (a, (fst s, l)).

Section Harness.

Variable now : N -> Z.
Variable ticks_per_ms : Z.
Context {L DataT : Type} `{DefaultConstructible DataT}.

Definition saveData (data : DataT)
    (saveFunction : L -> ostringstream -> DataT -> L * ostringstream)
    (os : ostringstream) : H L (Z * ostringstream) :=
  start <- in_world (clock_now now) ;;
  os <- invoke (fun l => saveFunction l os data) ;;
  stop <- in_world (clock_now now) ;;
  ret (duration_cast_ms ticks_per_ms (int64_sub stop start), os).

Definition loadData (dataStream : ostringstream)
    (loadFunction : L -> istringstream -> DataT -> L * DataT) : H L (DataT * Z) :=
  let data : DataT := default_value in
  let iss : istringstream := str dataStream in
  start <- in_world (clock_now now) ;;
  data <- invoke (fun l => loadFunction l iss data) ;;
  stop <- in_world (clock_now now) ;;
  ret (data, duration_cast_ms ticks_per_ms (int64_sub stop start)).

Variable SerializationT : Serialization L DataT.

(** One pass through the body of the [for] loop of [test]. *)
Definition iteration (data : DataT) (validateData : bool)
    (t : Totals DataT) : H L (Totals DataT) :=
  (* Boost *)
  let os : ostringstream := empty_ostringstream in
  '(saveResult, os) <- saveData data (save (boost SerializationT)) os ;;
  let totalBoostSave := totalBoostSave t + saveResult in
  let boostSize := if (boostSize t =? 0)%N then tellp os else boostSize t in
  '(loaded, loadMs) <- loadData os (load (boost SerializationT)) ;;
  let totalBoostLoad := totalBoostLoad t + loadMs in
  let log := calls t ++ [SaveCall Boost data os saveResult;
                         LoadCall Boost (str os) loaded loadMs] in
  (if validateData then ret tt (* TODO *) else ret tt) ;;
  (* Cereal *)
  let os : ostringstream := empty_ostringstream in
  '(saveResult, os) <- saveData data (save (cereal SerializationT)) os ;;
  let totalCerealSave := totalCerealSave t + saveResult in
  let cerealSize := if (cerealSize t =? 0)%N then tellp os else cerealSize t in
  '(loaded, loadMs) <- loadData os (load (cereal SerializationT)) ;;
  let totalCerealLoad := totalCerealLoad t + loadMs in
  let log := log ++ [SaveCall Cereal data os saveResult;
                     LoadCall Cereal (str os) loaded loadMs] in
  (if validateData then ret tt (* TODO *) else ret tt) ;;
  ret (mkTotals totalBoostSave totalBoostLoad totalCerealSave totalCerealLoad
                boostSize cerealSize log).

(** The [for] loop: [numAverages] passes. *)
Definition loop (data : DataT) (numAverages : N) (validateData : bool)
    (s : World * L) : Totals DataT * (World * L) :=
  N.iter numAverages (fun ts => iteration data validateData (fst ts) (snd ts))
         (initial_totals, s).

Definition test (name : string) (data : DataT) (numAverages : N)
    (validateData : bool) : H L (Report DataT) :=
  in_world (print (OutStr "-----------------------------------")) ;;
  in_world (print OutEndl) ;;
  in_world (print (OutStr "Running test: ")) ;;
  in_world (print (OutStr name)) ;;
  in_world (print OutEndl) ;;
  t <- loop data numAverages validateData ;;
  let r := report_of numAverages t in
  in_world (print_report r) ;;
  ret r.

(** *** One pass, call by call

    The streams written, the payloads loaded and the state of the
    adapters after each of the four calls of a pass that finds the
    adapters in state [l]. *)

Variable data : DataT.

Definition boost_stream (l : L) : ostringstream :=
  snd (save (boost SerializationT) l empty_ostringstream data).

Definition after_boost_save (l : L) : L :=
  fst (save (boost SerializationT) l empty_ostringstream data).

Definition boost_loaded (l : L) : DataT :=
  snd (load (boost SerializationT) (after_boost_save l) (str (boost_stream l))
            default_value).

Definition after_boost_load (l : L) : L :=
  fst (load (boost SerializationT) (after_boost_save l) (str (boost_stream l))
            default_value).

Definition cereal_stream (l : L) : ostringstream :=
  snd (save (cereal SerializationT) (after_boost_load l) empty_ostringstream data).

Definition after_cereal_save (l : L) : L :=
  fst (save (cereal SerializationT) (after_boost_load l) empty_ostringstream data).

Definition cereal_loaded (l : L) : DataT :=
  snd (load (cereal SerializationT) (after_cereal_save l) (str (cereal_stream l))
            default_value).

(** The state of the adapters after the pass. *)
Definition pass_state (l : L) : L :=
  fst (load (cereal SerializationT) (after_cereal_save l) (str (cereal_stream l))
            default_value).

(** The calls of the pass; [k] is the number of clock reads made before
    it. *)
Definition pass_calls (k : N) (l : L) : list (Call DataT) :=
  [ SaveCall Boost data (boost_stream l) (elapsed_ms now ticks_per_ms k);
    LoadCall Boost (str (boost_stream l)) (boost_loaded l)
             (elapsed_ms now ticks_per_ms (k + 2));
    SaveCall Cereal data (cereal_stream l) (elapsed_ms now ticks_per_ms (k + 4));
    LoadCall Cereal (str (cereal_stream l)) (cereal_loaded l)
             (elapsed_ms now ticks_per_ms (k + 6)) ].

(** The state of the adapters after [n] passes, and the calls of those
    passes. *)
Fixpoint passes_state (n : nat) (l : L) : L :=
  match n with
  | O => l
  | Datatypes.S n' => passes_state n' (pass_state l)
  end.

Fixpoint passes_calls (n : nat) (k : N) (l : L) : list (Call DataT) :=
  match n with
  | O => []
  | Datatypes.S n' => pass_calls k l ++ passes_calls n' (k + 8) (pass_state l)
  end.

(** The sizes of the streams the saves of the first [n] passes leave,
    pass by pass. *)
Definition boost_sizes (n : nat) (l : L) : list N :=
  map (fun i => tellp (boost_stream (passes_state i l))) (seq 0 n).

Definition cereal_sizes (n : nat) (l : L) : list N :=
  map (fun i => tellp (cereal_stream (passes_state i l))) (seq 0 n).

End Harness.

End Stateful.

(** An adapter without state of its own. *)
Definition stateless_archive {L T} (a : Archive T) : Stateful.Archive L T :=
  Stateful.mkArchive (fun l os data => (l, save a os data))
                     (fun l src data => (l, load a src data)).

Definition stateless {L T} (S : Serialization T) : Stateful.Serialization L T :=
  Stateful.mkSerialization (stateless_archive (boost S)) (stateless_archive (cereal S)).

(** *** Counting the calls

    Four counters beside the state of the adapters, and the adapters
    wrapped so that each call of one of the four functions adds one to
    its counter and otherwise does what the function does. *)

Record Counters : Type := mkCounters {
  boost_saves : N;
  boost_loads : N;
  cereal_saves : N;
  cereal_loads : N
}.

Definition counted_save {L T} (bump : Counters -> Counters)
    (f : L -> ostringstream -> T -> L * ostringstream)
    (lc : L * Counters) (os : ostringstream) (data : T)
    : (L * Counters) * ostringstream :=
  let (l, os) := f (fst lc) os data in ((l, bump (snd lc)), os).

Definition counted_load {L T} (bump : Counters -> Counters)
    (f : L -> istringstream -> T -> L * T)
    (lc : L * Counters) (src : istringstream) (data : T) : (L * Counters) * T :=
  let (l, data) := f (fst lc) src data in ((l, bump (snd lc)), data).

Definition bump_boost_saves (c : Counters) : Counters :=
  mkCounters (boost_saves c + 1) (boost_loads c) (cereal_saves c) (cereal_loads c).

Definition bump_boost_loads (c : Counters) : Counters :=
  mkCounters (boost_saves c) (boost_loads c + 1) (cereal_saves c) (cereal_loads c).

Definition bump_cereal_saves (c : Counters) : Counters :=
  mkCounters (boost_saves c) (boost_loads c) (cereal_saves c + 1) (cereal_loads c).

Definition bump_cereal_loads (c : Counters) : Counters :=
  mkCounters (boost_saves c) (boost_loads c) (cereal_saves c) (cereal_loads c + 1).

Definition counted {L T} (S : Stateful.Serialization L T)
    : Stateful.Serialization (L * Counters) T :=
  Stateful.mkSerialization
    (Stateful.mkArchive
       (counted_save bump_boost_saves (Stateful.save (Stateful.boost S)))
       (counted_load bump_boost_loads (Stateful.load (Stateful.boost S))))
    (Stateful.mkArchive
       (counted_save bump_cereal_saves (Stateful.save (Stateful.cereal S)))
       (counted_load bump_cereal_loads (Stateful.load (Stateful.cereal S)))).

(** The counters after [n] more calls of each function. *)
Definition add_calls (n : N) (c : Counters) : Counters :=
  mkCounters (boost_saves c + n) (boost_loads c + n)
             (cereal_saves c + n) (cereal_loads c + n).

(** *** The sizes seen *)

(** The sizes of the streams the saves of one library left, in call
    order. *)
Definition save_sizes {T} (lib : Library) (l : list (Call T)) : list N :=
  flat_map (fun c => match c with
                     | SaveCall lib' _ os _ =>
                         if Library_eqb lib' lib then [tellp os] else []
                     | LoadCall _ _ _ _ => []
                     end) l.

(** The first size that is not zero; zero when there is none. *)
Fixpoint first_nonzero (l : list N) : N :=
  match l with
  | [] => 0
  | x :: rest => if (x =? 0)%N then first_nonzero rest else x
  end.

(** An adapter whose save writes nothing the first time it is called
    and one byte every time after; its state is the number of saves
    made so far.  Its load leaves the payload as constructed. *)
Definition late_archive : Stateful.Archive N (list uint8_t) :=
  Stateful.mkArchive
    (fun calls os _ =>
       (calls + 1, if calls =? 0 then os else write os [x01])%N)
    (fun calls _ data => (calls, data)).

(** Boost saves first in a pass: it is the boost adapter that writes
    nothing in the first pass.  The cereal adapter has a state of its
    own kind, here the same counter read one call later. *)
Definition late : Stateful.Serialization N (list uint8_t) :=
  Stateful.mkSerialization late_archive late_archive.

(** * Properties *)

(** ** The loop of [test] *)

Section LoopFacts.

Variable now : N -> Z.
Variable ticks_per_ms : Z.
Context {DataT : Type} `{DefaultConstructible DataT}.
Variable S : Serialization DataT.
Variable data : DataT.

Local Abbreviation elapsed := (elapsed_ms now ticks_per_ms).
Local Abbreviation pass := (pass_calls now ticks_per_ms S data).
Local Abbreviation run_loop := (loop now ticks_per_ms S data).

Lemma iteration_eq (v : bool) (t : Totals DataT) (w : World) :
  iteration now ticks_per_ms S data v t w =
  (mkTotals (totalBoostSave t + elapsed (clock_reads w))
            (totalBoostLoad t + elapsed (clock_reads w + 2)%N)
            (totalCerealSave t + elapsed (clock_reads w + 4)%N)
            (totalCerealLoad t + elapsed (clock_reads w + 6)%N)
            (if (boostSize t =? 0)%N then tellp (save (boost S) empty_ostringstream data)
             else boostSize t)
            (if (cerealSize t =? 0)%N then tellp (save (cereal S) empty_ostringstream data)
             else cerealSize t)
            (calls t ++ pass (clock_reads w)),
   mkWorld (clock_reads w + 8) (cout w)).
Proof.
  destruct w as [k out]; unfold iteration, pass_calls, elapsed_ms.
  replace (clock_reads (mkWorld k out) + 2)%N with (N.succ (N.succ k)) by (cbn; lia).
  replace (clock_reads (mkWorld k out) + 4)%N
    with (N.succ (N.succ (N.succ (N.succ k)))) by (cbn; lia).
  replace (clock_reads (mkWorld k out) + 6)%N
    with (N.succ (N.succ (N.succ (N.succ (N.succ (N.succ k)))))) by (cbn; lia).
  replace (clock_reads (mkWorld k out) + 8)%N
    with (N.succ (N.succ (N.succ (N.succ (N.succ (N.succ (N.succ (N.succ k))))))))
    by (cbn; lia).
  destruct v; cbn; unfold ret, str; rewrite <- app_assoc; reflexivity.
Qed.

Lemma loop_zero (v : bool) (w : World) : run_loop 0%N v w = (initial_totals, w).
Proof. reflexivity. Qed.

Lemma loop_succ (n : N) (v : bool) (w : World) :
  run_loop (N.succ n) v w =
  iteration now ticks_per_ms S data v (fst (run_loop n v w)) (snd (run_loop n v w)).
Proof. unfold loop. rewrite N.iter_succ. reflexivity. Qed.

(** Each pass reads the clock eight times and prints nothing. *)
Lemma loop_world (n : N) (v : bool) (w : World) :
  snd (run_loop n v w) = mkWorld (clock_reads w + 8 * n) (cout w).
Proof.
  induction n as [|n IH] using N.peano_ind.
  - rewrite loop_zero. destruct w as [k out]. cbn. f_equal. lia.
  - rewrite loop_succ, iteration_eq. cbn [snd]. rewrite IH. cbn [clock_reads cout].
    f_equal. lia.
Qed.

(** The flag [validateData] has no influence on the loop. *)
Lemma loop_validateData (n : N) (w : World) : run_loop n true w = run_loop n false w.
Proof.
  induction n as [|n IH] using N.peano_ind.
  - reflexivity.
  - rewrite !loop_succ, !iteration_eq, IH. reflexivity.
Qed.

Lemma loop_boostSize (n : N) (v : bool) (w : World) :
  boostSize (fst (run_loop n v w)) =
  if (n =? 0)%N then 0%N else tellp (save (boost S) empty_ostringstream data).
Proof.
  induction n as [|n IH] using N.peano_ind.
  - reflexivity.
  - rewrite loop_succ, iteration_eq. cbn [fst boostSize]. rewrite IH.
    replace (N.succ n =? 0)%N with false by (symmetry; apply N.eqb_neq; lia).
    destruct (n =? 0)%N; [reflexivity|].
    destruct (tellp (save (boost S) empty_ostringstream data) =? 0)%N eqn:E; [|reflexivity].
    apply N.eqb_eq in E. congruence.
Qed.

Lemma loop_cerealSize (n : N) (v : bool) (w : World) :
  cerealSize (fst (run_loop n v w)) =
  if (n =? 0)%N then 0%N else tellp (save (cereal S) empty_ostringstream data).
Proof.
  induction n as [|n IH] using N.peano_ind.
  - reflexivity.
  - rewrite loop_succ, iteration_eq. cbn [fst cerealSize]. rewrite IH.
    replace (N.succ n =? 0)%N with false by (symmetry; apply N.eqb_neq; lia).
    destruct (n =? 0)%N; [reflexivity|].
    destruct (tellp (save (cereal S) empty_ostringstream data) =? 0)%N eqn:E; [|reflexivity].
    apply N.eqb_eq in E. congruence.
Qed.

Lemma loop_calls_succ (n : N) (v : bool) (w : World) :
  calls (fst (run_loop (N.succ n) v w)) =
  calls (fst (run_loop n v w)) ++ pass (clock_reads w + 8 * n)%N.
Proof.
  rewrite loop_succ, iteration_eq. cbn [fst calls]. rewrite loop_world. reflexivity.
Qed.

Lemma count_app {A} (p : A -> bool) (l1 l2 : list A) :
  count p (l1 ++ l2) = (count p l1 + count p l2)%nat.
Proof. unfold count. rewrite filter_app, length_app. reflexivity. Qed.

Lemma sum_by_app {A} (f : A -> Z) (l1 l2 : list A) :
  sum_by f (l1 ++ l2) = sum_by f l1 + sum_by f l2.
Proof.
  induction l1 as [|x l1 IH]; cbn; [reflexivity|].
  fold (sum_by f (l1 ++ l2)) (sum_by f l1). rewrite IH. lia.
Qed.

Lemma loop_count_save (lib : Library) (n : N) (v : bool) (w : World) :
  count (is_save lib) (calls (fst (run_loop n v w))) = N.to_nat n.
Proof.
  induction n as [|n IH] using N.peano_ind.
  - reflexivity.
  - rewrite loop_calls_succ, count_app, IH, N2Nat.inj_succ.
    destruct lib; cbn; lia.
Qed.

Lemma loop_count_load (lib : Library) (n : N) (v : bool) (w : World) :
  count (is_load lib) (calls (fst (run_loop n v w))) = N.to_nat n.
Proof.
  induction n as [|n IH] using N.peano_ind.
  - reflexivity.
  - rewrite loop_calls_succ, count_app, IH, N2Nat.inj_succ.
    destruct lib; cbn; lia.
Qed.

Lemma loop_faithful (n : N) (v : bool) (w : World) :
  Forall (faithful S data) (calls (fst (run_loop n v w))).
Proof.
  induction n as [|n IH] using N.peano_ind.
  - constructor.
  - rewrite loop_calls_succ. apply Forall_app. split; [exact IH|].
    unfold pass_calls. repeat constructor.
Qed.

Lemma loop_totals (n : N) (v : bool) (w : World) :
  let t := fst (run_loop n v w) in
  totalBoostSave t = sum_by (save_ms Boost) (calls t) /\
  totalBoostLoad t = sum_by (load_ms Boost) (calls t) /\
  totalCerealSave t = sum_by (save_ms Cereal) (calls t) /\
  totalCerealLoad t = sum_by (load_ms Cereal) (calls t).
Proof.
  induction n as [|n IH] using N.peano_ind.
  - repeat split.
  - cbv zeta in *. rewrite loop_calls_succ, !sum_by_app.
    rewrite loop_succ, iteration_eq. cbn [fst totalBoostSave totalBoostLoad
      totalCerealSave totalCerealLoad]. rewrite loop_world. cbn [clock_reads].
    destruct IH as (-> & -> & -> & ->). cbn. repeat split; f_equal; lia.
Qed.

(** [test], with the loop factored out. *)
Lemma test_eq (name : string) (n : N) (v : bool) (w : World) :
  test now ticks_per_ms S name data n v w =
  let r := report_of n
             (fst (run_loop n v (mkWorld (clock_reads w) (cout w ++ header name)))) in
  (r, mkWorld (clock_reads w + 8 * n) (cout w ++ header name ++ report_lines r)).
Proof.
  unfold test, print_report, bind, print, ret, header, report_lines.
  cbn [clock_reads cout]. cbv zeta.
  rewrite <- !app_assoc. cbn [app].
  match goal with |- context [loop _ _ _ _ ?n ?v ?w'] =>
    pose proof (loop_world n v w') as Hw;
    destruct (loop now ticks_per_ms S data n v w') as [t w''] end.
  cbn [snd clock_reads cout] in Hw. subst w''. cbn [clock_reads cout fst].
  rewrite <- !app_assoc. reflexivity.
Qed.

End LoopFacts.

(** ** Division by zero in [double] *)

Lemma div_by_zero (x y : double) :
  Double.is_zero y = true -> Double.is_finite (Double.div x y) = false.
Proof. destruct x, y; cbn; intros E; try discriminate E; reflexivity. Qed.

Lemma of_N_zero : Double.of_N 0 = Double.zero.
Proof. reflexivity. Qed.

(** ** A repeat count of zero *)

Section ZeroRepeatCount.

Variable now : N -> Z.
Variable ticks_per_ms : Z.
Context {DataT : Type} `{DefaultConstructible DataT}.
Variable S : Serialization DataT.

(** C1, as the code has it: [test] has no check of [numAverages].  With
    [numAverages = 0] the loop body is not entered (no clock read, no
    call into either library), the four averages are still computed, as
    [0 / 0.0 = NaN], the three ratios as [NaN / NaN] and [0 / 0.0], and
    the full report is printed. *)
Theorem test_zero_averages (name : string) (data : DataT) (v : bool) (w : World) :
  test now ticks_per_ms S name data 0 v w =
  (@empty_report DataT,
   mkWorld (clock_reads w)
           (cout w ++ header name ++ report_lines (@empty_report DataT))).
Proof.
  rewrite test_eq. cbv zeta. rewrite loop_zero. cbn [fst].
  f_equal. f_equal. lia.
Qed.

End ZeroRepeatCount.

(** C1, as stated, fails: with [numAverages = 0] the test is not
    refused.  The averages are computed with a zero divisor and
    written to standard output. *)
Lemma test_zero_averages_not_rejected :
  let rw := test Fixture.frozen Fixture.ns_per_ms Fixture.binary
                 "zero" [1; 2; 3] 0 false Fixture.start in
  ~ reports_nothing (snd rw) /\
  ~ divisions_guarded (fst rw) /\
  averageBoostSave (fst rw) = Double.div (Double.of_Z 0) (Double.of_N 0) /\
  averageBoostSave (fst rw) = Double.nan /\
  In (OutFormat save_format
        [Double.nan; Double.one; Double.zero; Double.one; Double.zero])
     (cout (snd rw)).
Proof.
  cbv zeta. unfold reports_nothing, divisions_guarded.
  split; [|split; [|split; [|split]]].
  - vm_compute. discriminate.
  - vm_compute. discriminate.
  - reflexivity.
  - reflexivity.
  - vm_compute. tauto.
Qed.

(** ** The harness on arbitrary inputs *)

Section HarnessProperties.

Variable now : N -> Z.
Variable ticks_per_ms : Z.
Context {DataT : Type} `{DefaultConstructible DataT}.
Variable S : Serialization DataT.

Local Abbreviation run_test := (test now ticks_per_ms S).
Local Abbreviation run_loop := (loop now ticks_per_ms S).

Lemma test_totals (name : string) (data : DataT) (n : N) (v : bool) (w : World) :
  totals (fst (run_test name data n v w)) =
  fst (run_loop data n v (mkWorld (clock_reads w) (cout w ++ header name))).
Proof. rewrite test_eq. reflexivity. Qed.

(** [test] does the same whatever [validateData] is. *)
Lemma test_validateData (name : string) (data : DataT) (n : N) (w : World) :
  run_test name data n true w = run_test name data n false w.
Proof. rewrite !test_eq, loop_validateData. reflexivity. Qed.

Lemma saved_payloads_app {T} (l1 l2 : list (Call T)) :
  saved_payloads (l1 ++ l2) = saved_payloads l1 ++ saved_payloads l2.
Proof. apply flat_map_app. Qed.

Lemma loop_saved_payloads (data : DataT) (n : N) (v : bool) (w : World) :
  saved_payloads (calls (fst (run_loop data n v w))) = repeat data (2 * N.to_nat n).
Proof.
  induction n as [|n IH] using N.peano_ind.
  - reflexivity.
  - rewrite loop_calls_succ, saved_payloads_app, IH, N2Nat.inj_succ.
    replace (2 * Datatypes.S (N.to_nat n))%nat with (2 * N.to_nat n + 2)%nat by lia.
    rewrite repeat_app. reflexivity.
Qed.

(** C7: the payload is handed to every save as it was handed to [test].
    The payloads the [2 * numAverages] saves receive, in call order, are
    all [data]; every save writes into a fresh stream and every load
    fills a fresh default-constructed payload, so nothing flows back
    into [data]. *)
Theorem payload_never_mutated
    (name : string) (data : DataT) (numAverages : N) (v : bool) (w : World) :
  let log := calls (totals (fst (run_test name data numAverages v w))) in
  saved_payloads log = repeat data (2 * N.to_nat numAverages) /\
  Forall (faithful S data) log.
Proof.
  cbv zeta. rewrite test_totals. split.
  - apply loop_saved_payloads.
  - apply loop_faithful.
Qed.

End HarnessProperties.

(** ** Doubling and halving in [double] *)

Module DoubleFacts.

Import Double.

(** A finite double is normal (53 digits) or subnormal (fewer digits,
    least exponent). *)
Lemma bounded_cases (m : positive) (e : Z) :
  bounded prec emax m e = true ->
  e <= 971 /\
  ((Zpos (digits2_pos m) = 53 /\ -1074 <= e) \/
   (Zpos (digits2_pos m) < 53 /\ e = -1074)).
Proof.
  unfold bounded, canonical_mantissa, fexp, emin, prec, emax.
  intros E. apply andb_true_iff in E. destruct E as [E1 E2].
  apply Z.eqb_eq in E1. apply Z.leb_le in E2. lia.
Qed.

Lemma mul_two_normal (s : bool) (m : positive) (e : Z) :
  Zpos (digits2_pos m) = 53 -> -1074 <= e ->
  mul two (S754_finite s m e) =
  if e + 1 <=? 971 then S754_finite s m (e + 1) else S754_infinity s.
Proof.
  intros Hd He.
  unfold mul, SFmul, two, binary_round_aux.
  cbn [Pos.mul xorb].
  unfold shr_fexp at 1.
  cbn [Zdigits2 digits2_pos].
  rewrite !Pos2Z.inj_succ, Hd.
  unfold fexp, emin, prec, emax.
  replace (Z.max _ _ - (-51 + e)) with 52 by lia.
  cbn [shr_record_of_loc shr iter_pos shr_1 orb].
  cbn [shr_m loc_of_shr_record round_nearest_even].
  unfold shr_fexp, fexp, emin. cbn [Zdigits2]. rewrite Hd.
  replace (Z.max _ _ - (-51 + e + 52)) with 0 by lia.
  cbn [shr_record_of_loc shr shr_m].
  replace (-51 + e + 52) with (e + 1) by lia. reflexivity.
Qed.

Lemma mul_two_subnormal (s : bool) (m : positive) :
  Zpos (digits2_pos m) < 53 ->
  mul two (S754_finite s m (-1074)) = S754_finite s m~0 (-1074).
Proof.
  intros Hd.
  unfold mul, SFmul, two, binary_round_aux.
  cbn [Pos.mul xorb].
  unfold shr_fexp at 1.
  cbn [Zdigits2 digits2_pos].
  rewrite !Pos2Z.inj_succ.
  unfold fexp, emin, prec, emax.
  replace (Z.max _ _ - (-51 + -1074)) with 51 by lia.
  cbn [shr_record_of_loc shr iter_pos shr_1 orb].
  cbn [shr_m loc_of_shr_record round_nearest_even].
  unfold shr_fexp, fexp, emin. cbn [Zdigits2 digits2_pos]. rewrite Pos2Z.inj_succ.
  replace (Z.max _ _ - (-51 + -1074 + 51)) with 0 by lia.
  cbn [shr_record_of_loc shr shr_m]. reflexivity.
Qed.

Lemma div_eucl_shiftl (m : positive) (k : Z) :
  0 <= k -> Z.div_eucl (Z.shiftl (Zpos m) k) (Zpos m) = (2 ^ k, 0).
Proof.
  intros Hk. rewrite Z.shiftl_mul_pow2 by assumption.
  rewrite (surjective_pairing (Z.div_eucl _ _)).
  change (fst (Z.div_eucl ?x ?y)) with (Z.div x y).
  change (snd (Z.div_eucl ?x ?y)) with (Z.modulo x y).
  rewrite Z.mul_comm, Z.div_mul, Z.mod_mul by discriminate. reflexivity.
Qed.

Lemma new_location_zero (m : positive) : new_location (Zpos m) 0 = loc_Exact.
Proof. unfold new_location. destruct (Z.even (Zpos m)); reflexivity. Qed.

Lemma div_twice_normal (s : bool) (m : positive) (e : Z) :
  Zpos (digits2_pos m) = 53 ->
  div (S754_finite s m (e + 1)) (S754_finite s m e) = two.
Proof.
  intros Hd. unfold div, SFdiv, SFdiv_core_binary.
  cbn [Zdigits2]. rewrite Hd.
  replace (53 + (e + 1) - (53 + e)) with 1 by lia.
  replace (e + 1 - e) with 1 by lia.
  change (Z.min (fexp prec emax 1) 1) with (-52).
  change (1 - -52) with 53.
  cbv iota beta.
  rewrite (div_eucl_shiftl m 53) by lia.
  rewrite new_location_zero, xorb_nilpotent.
  reflexivity.
Qed.

Lemma div_twice_subnormal (s : bool) (m : positive) :
  div (S754_finite s m~0 (-1074)) (S754_finite s m (-1074)) = two.
Proof.
  unfold div, SFdiv, SFdiv_core_binary.
  cbn [Zdigits2 digits2_pos]. rewrite Pos2Z.inj_succ.
  replace (Z.succ (Zpos (digits2_pos m)) + -1074 - (Zpos (digits2_pos m) + -1074))
    with 1 by lia.
  change (Z.min (fexp prec emax 1) (-1074 - -1074)) with (-52).
  change (-1074 - -1074 - -52) with 52.
  cbv iota beta.
  change (Z.shiftl (Zpos m~0) 52) with (Z.shiftl (Zpos m) 53).
  rewrite (div_eucl_shiftl m 53) by lia.
  rewrite new_location_zero, xorb_nilpotent.
  reflexivity.
Qed.

(** [(2 * T) / T = 2] for every non-zero double [T] whose double is
    finite. *)
Lemma div_twice (T : double) :
  valid T = true -> is_zero T = false -> is_finite (mul two T) = true ->
  div (mul two T) T = two.
Proof.
  destruct T as [z|i| |s m e]; try discriminate.
  intros Hv _ Hf. cbn [valid valid_binary] in Hv.
  apply bounded_cases in Hv. destruct Hv as [_ [[Hd He]|[Hd ->]]].
  - rewrite mul_two_normal in * by assumption.
    destruct (e + 1 <=? 971); [|discriminate].
    apply div_twice_normal; assumption.
  - rewrite mul_two_subnormal by assumption.
    apply div_twice_subnormal.
Qed.

(** [(2 * 0) / 0] is not a number. *)
Lemma div_twice_zero (T : double) :
  is_zero T = true -> div (mul two T) T = nan.
Proof. destruct T; try discriminate. reflexivity. Qed.

End DoubleFacts.

(** ** The figures of the report *)

Section ReportProperties.

Variable now : N -> Z.
Variable ticks_per_ms : Z.
Context {DataT : Type} `{DefaultConstructible DataT}.
Variable S : Serialization DataT.

Local Abbreviation run_test := (test now ticks_per_ms S).

Lemma test_report (name : string) (data : DataT) (n : N) (v : bool) (w : World) :
  fst (run_test name data n v w) =
  report_of n (totals (fst (run_test name data n v w))).
Proof. rewrite test_eq. reflexivity. Qed.

Lemma test_cout (name : string) (data : DataT) (n : N) (v : bool) (w : World) :
  cout (snd (run_test name data n v w)) =
  cout w ++ header name ++ report_lines (fst (run_test name data n v w)).
Proof. rewrite test_eq. reflexivity. Qed.

(** C3, as the code has it: the three ratios are plain divisions,
    evaluated and printed on every run.  When the boost figure is zero
    the quotient is a division by zero: not a number or an infinity,
    never a finite value. *)
Theorem ratios_unguarded
    (name : string) (data : DataT) (numAverages : N) (v : bool) (w : World) :
  let rw := run_test name data numAverages v w in
  let r := fst rw in
  cerealSaveP r = Double.div (averageCerealSave r) (averageBoostSave r) /\
  cerealLoadP r = Double.div (averageCerealLoad r) (averageBoostLoad r) /\
  cerealSizeP r = Double.div (Double.of_N (cerealSize (totals r)))
                             (Double.of_N (boostSize (totals r))) /\
  skipn 4 (divisions r) =
    [ (averageCerealSave r, averageBoostSave r);
      (averageCerealLoad r, averageBoostLoad r);
      (Double.of_N (cerealSize (totals r)), Double.of_N (boostSize (totals r))) ] /\
  (Double.is_zero (averageBoostSave r) = true ->
   Double.is_finite (cerealSaveP r) = false) /\
  (Double.is_zero (averageBoostLoad r) = true ->
   Double.is_finite (cerealLoadP r) = false) /\
  (boostSize (totals r) = 0%N -> Double.is_finite (cerealSizeP r) = false) /\
  In (OutFormat save_format
        [averageCerealSave r; cerealSaveP r;
         Double.div (Double.of_N (cerealSize (totals r))) (Double.of_Z 1024);
         cerealSizeP r; Double.of_Z (totalCerealSave (totals r))])
     (cout (snd rw)) /\
  In (OutFormat load_format
        [averageCerealLoad r; cerealLoadP r;
         Double.of_Z (totalCerealLoad (totals r))])
     (cout (snd rw)).
Proof.
  cbv zeta. rewrite test_cout.
  set (r := fst (run_test name data numAverages v w)).
  assert (Hr : r = report_of numAverages (totals r)) by apply test_report.
  assert (Hs : cerealSaveP r = Double.div (averageCerealSave r) (averageBoostSave r))
    by (rewrite Hr; reflexivity).
  assert (Hl : cerealLoadP r = Double.div (averageCerealLoad r) (averageBoostLoad r))
    by (rewrite Hr; reflexivity).
  assert (Hz : cerealSizeP r = Double.div (Double.of_N (cerealSize (totals r)))
                                          (Double.of_N (boostSize (totals r))))
    by (rewrite Hr; reflexivity).
  repeat split; try assumption.
  - rewrite Hr. reflexivity.
  - intros E. rewrite Hs. apply div_by_zero, E.
  - intros E. rewrite Hl. apply div_by_zero, E.
  - intros E. rewrite Hz, E. apply div_by_zero. reflexivity.
  - apply in_or_app; right. apply in_or_app; right. cbn. tauto.
  - apply in_or_app; right. apply in_or_app; right. cbn. tauto.
Qed.

(** C6, as the code has it, for [numAverages > 0]: each average is the
    accumulated total, which is the sum of the elapsed milliseconds of
    that library's calls, divided by [numAverages]; the three ratios are
    the quotients cereal / boost.  When the boost average save time is a
    non-zero [T] and the cereal one is [2 * T], the save ratio is exactly
    [2.0]; when [T] is zero it is not a number.  These figures are what
    is written to standard output. *)
Theorem report_averages_and_ratios
    (name : string) (data : DataT) (numAverages : N) (v : bool) (w : World) :
  (0 < numAverages)%N ->
  let r := fst (run_test name data numAverages v w) in
  let t := totals r in
  cout (snd (run_test name data numAverages v w)) =
    cout w ++ header name ++ report_lines r /\
  (totalBoostSave t = sum_by (save_ms Boost) (calls t) /\
   totalBoostLoad t = sum_by (load_ms Boost) (calls t) /\
   totalCerealSave t = sum_by (save_ms Cereal) (calls t) /\
   totalCerealLoad t = sum_by (load_ms Cereal) (calls t)) /\
  (averageBoostSave r =
     Double.div (Double.of_Z (totalBoostSave t)) (Double.of_N numAverages) /\
   averageBoostLoad r =
     Double.div (Double.of_Z (totalBoostLoad t)) (Double.of_N numAverages) /\
   averageCerealSave r =
     Double.div (Double.of_Z (totalCerealSave t)) (Double.of_N numAverages) /\
   averageCerealLoad r =
     Double.div (Double.of_Z (totalCerealLoad t)) (Double.of_N numAverages)) /\
  (cerealSaveP r = Double.div (averageCerealSave r) (averageBoostSave r) /\
   cerealLoadP r = Double.div (averageCerealLoad r) (averageBoostLoad r) /\
   cerealSizeP r = Double.div (Double.of_N (cerealSize t))
                              (Double.of_N (boostSize t))) /\
  (forall T : double,
      averageBoostSave r = T ->
      averageCerealSave r = Double.mul Double.two T ->
      Double.valid T = true ->
      Double.is_finite (Double.mul Double.two T) = true ->
      (Double.is_zero T = false -> cerealSaveP r = Double.two) /\
      (Double.is_zero T = true -> cerealSaveP r = Double.nan)).
Proof.
  intros _ r t.
  assert (Hr : r = report_of numAverages t) by apply test_report.
  split; [apply test_cout|].
  split; [|split; [|split]].
  - subst t r. rewrite test_totals. apply loop_totals.
  - rewrite Hr. repeat split.
  - rewrite Hr. repeat split.
  - intros T HB HC Hv Hf.
    assert (Hs : cerealSaveP r = Double.div (averageCerealSave r) (averageBoostSave r))
      by (rewrite Hr; reflexivity).
    rewrite Hs, HC, HB. split; intros Hz.
    + apply DoubleFacts.div_twice; assumption.
    + apply DoubleFacts.div_twice_zero; assumption.
Qed.

End ReportProperties.

(** ** Random strings *)

Lemma Z_of_char_of_Z (z : Z) : 0 <= z < 256 -> Z_of_char (char_of_Z z) = z.
Proof.
  intros Hz. unfold Z_of_char, char_of_Z.
  rewrite Z.mod_small by assumption.
  rewrite N_ascii_embedding by lia. lia.
Qed.

Lemma length_string_n (n : nat) (ch : ascii) : String.length (string_n n ch) = n.
Proof. induction n as [|n IH]; cbn; congruence. Qed.

Section RandomString.

Variable mt19937 : Type.
Variable uniform_int_distribution : Z -> Z -> mt19937 -> Z * mt19937.

(** What the standard asks of [uniform_int_distribution(a, b)]: the
    value drawn lies in the closed interval. *)
Hypothesis uniform_int_range :
  forall (lo hi : Z) (g : mt19937),
    lo <= hi -> lo <= fst (uniform_int_distribution lo hi g) <= hi.

Section Fill.

Variables lo hi : ascii.

Local Abbreviation draw_char :=
  (uniform_int_distribution (Z_of_char lo) (Z_of_char hi)).
Local Abbreviation skip := (after_chars mt19937 uniform_int_distribution lo hi).

Lemma after_chars_shift (k : nat) (g : mt19937) :
  skip (Datatypes.S k) g = skip k (snd (draw_char g)).
Proof.
  induction k as [|k IH].
  - reflexivity.
  - change (skip (Datatypes.S (Datatypes.S k)) g)
      with (snd (draw_char (skip (Datatypes.S k) g))).
    rewrite IH. reflexivity.
Qed.

(** Filling a string of [k] characters makes [k] draws: the character
    at index [i] is the value drawn from the engine as [i] earlier
    draws left it. *)
Lemma fill_uniform_spec (ch : ascii) (k : nat) (g : mt19937) :
  exists s,
    fill_uniform mt19937 uniform_int_distribution lo hi (string_n k ch) g
      = (s, skip k g) /\
    String.length s = k /\
    forall i, (i < k)%nat ->
      String.get i s = Some (char_of_Z (fst (draw_char (skip i g)))).
Proof.
  revert g. induction k as [|k IH]; intros g.
  - exists EmptyString. repeat split. intros i Hi. lia.
  - cbn [string_n fill_uniform].
    destruct (uniform_int_distribution _ _ g) as [c g1] eqn:Ec.
    destruct (IH g1) as (rest & Hfill & Hlen & Hget).
    rewrite Hfill. exists (String (char_of_Z c) rest).
    assert (Hg1 : g1 = snd (draw_char g)) by (rewrite Ec; reflexivity).
    repeat split.
    + rewrite after_chars_shift, <- Hg1. reflexivity.
    + cbn. congruence.
    + intros [|i] Hi.
      * cbn [String.get after_chars]. rewrite Ec. reflexivity.
      * cbn [String.get]. rewrite after_chars_shift, <- Hg1. apply Hget. lia.
Qed.

End Fill.

(** C9: [random_value<std::string>] makes one draw of
    [uniform_int_distribution<int>(3, 30)] and takes it as the length,
    then one draw of [uniform_int_distribution<char>(' ', '~')] per
    character, in order, each from the engine state the previous draw
    left.  So the length lies in [3, 30] and every character in
    [0x20, 0x7E]. *)
Theorem random_value_string_uniform (gen : mt19937) :
  let n := fst (uniform_int_distribution 3 30 gen) in
  let g := snd (uniform_int_distribution 3 30 gen) in
  3 <= n <= 30 /\
  exists s : string,
    random_value_string mt19937 uniform_int_distribution gen
      = (Some s, after_chars mt19937 uniform_int_distribution " " "~" (Z.to_nat n) g) /\
    Z.of_nat (String.length s) = n /\
    forall i, (i < String.length s)%nat ->
      exists ch : ascii,
        String.get i s = Some ch /\
        Z_of_char ch =
          fst (uniform_int_distribution 32 126
                 (after_chars mt19937 uniform_int_distribution " " "~" i g)) /\
        32 <= Z_of_char ch <= 126.
Proof.
  intros n g.
  assert (Hn : 3 <= n <= 30) by (apply uniform_int_range; lia).
  split; [exact Hn|].
  unfold random_value_string.
  destruct (uniform_int_distribution 3 30 gen) as [n' g'] eqn:E.
  cbn [fst snd] in n, g. subst n g.
  unfold string_of_count. replace (n' <? 0) with false by (symmetry; apply Z.ltb_ge; lia).
  destruct (fill_uniform_spec " " "~" " " (Z.to_nat n') g') as (s & Hfill & Hlen & Hget).
  rewrite Hfill. exists s. split; [reflexivity|]. split; [lia|].
  intros i Hi. rewrite Hlen in Hi.
  eexists. split; [apply Hget; exact Hi|].
  change (Z_of_char " ") with 32. change (Z_of_char "~") with 126.
  pose proof (uniform_int_range 32 126
                (after_chars mt19937 uniform_int_distribution " " "~" i g')
                ltac:(lia)) as Hr.
  rewrite Z_of_char_of_Z by lia. split; [reflexivity|lia].
Qed.

End RandomString.

(** ** The driver *)


Lemma vector_n_all {A} (s : N) (x : A) : Forall (eq x) (vector_n s x).
Proof.
  unfold vector_n. induction (N.to_nat s) as [|k IH]; constructor; auto.
Qed.





#[local] Opaque vector_n.

Section DriverFacts.

Variable now : N -> Z.
Variable ticks_per_ms : Z.
Variable mt19937 : Type.
Variable seed_mt19937 : Z -> mt19937.
Variable uniform_int_distribution : Z -> Z -> mt19937 -> Z * mt19937.
Variable uniform_real_distribution : double -> double -> mt19937 -> double * mt19937.
Variable binary_double : Serialization (list double).
Variable binary_uint8 : Serialization (list uint8_t).
Variable binary_PoDStruct : Serialization (list PoD.PoDStruct).
Variable binary_PoDChild : Serialization (list PoD.PoDChild).
Variable uninitialized : PoD.PoDStruct.

Local Abbreviation Proc := (Process mt19937).

Lemma runs_ret {A} (a : A) (p : Proc) : runs (ret a) p a [] 0.
Proof.
  unfold runs, ret. cbn. rewrite app_nil_r, N.add_0_r. repeat split.
Qed.

Lemma runs_bind {A B} (m : State Proc A) (k : A -> State Proc B) (p : Proc)
    (a : A) (b : B) (l1 l2 : list Invocation) (r1 r2 : N) :
  runs m p a l1 r1 ->
  runs (k a) (snd (m p)) b l2 r2 ->
  runs (bind m k) p b (l1 ++ l2) (r1 + r2).
Proof.
  unfold runs, bind. destruct (m p) as [a' p1]. cbn [fst snd].
  intros (-> & Hg1 & Hr1 & Hi1 & Hc1) (Hb & Hg2 & Hr2 & Hi2 & Hc2).
  repeat split.
  - exact Hb.
  - congruence.
  - congruence.
  - rewrite Hi2, Hi1, app_assoc. reflexivity.
  - rewrite Hc2, Hc1. lia.
Qed.

Lemma runs_call_test {DataT} `{DefaultConstructible DataT}
    (binary : Serialization DataT) (view : DataT -> Payload)
    (name : string) (data : DataT) (p : Proc) :
  runs (call_test now ticks_per_ms mt19937 binary view name data) p tt
       [mkInvocation name (view data) 10 false] 80.
Proof.
  unfold runs, call_test. rewrite test_eq. cbv zeta. cbn [fst snd gen random_values
    invocations world clock_reads]. repeat split.
Qed.

Lemma runs_vectorDoubleTest (s : N) (p : Proc) :
  runs (vectorDoubleTest now ticks_per_ms mt19937 uniform_real_distribution
          binary_double s false) p tt
       [mkInvocation ("Vector(double) size " ++ string_of_size_t s)
          (VectorDouble (vector_n s (S754_zero false))) 10 false] 80.
Proof. apply (runs_call_test binary_double VectorDouble). Qed.

Lemma runs_vectorCharTest (s : N) (p : Proc) :
  runs (vectorCharTest now ticks_per_ms mt19937 uniform_int_distribution
          binary_uint8 s false) p tt
       [mkInvocation ("Vector(uint8_t) size " ++ string_of_size_t s)
          (VectorUInt8 (vector_n s 0)) 10 false] 80.
Proof. apply (runs_call_test binary_uint8 VectorUInt8). Qed.

Lemma runs_vectorPoDStructTest (s : N) (p : Proc) :
  runs (vectorPoDStructTest now ticks_per_ms mt19937 binary_PoDStruct s) p tt
       [mkInvocation ("Vector(PoDStruct) size " ++ string_of_size_t s)
          (VectorPoDStruct (vector_n s PoDStruct_zero)) 10 false] 80.
Proof. apply (runs_call_test binary_PoDStruct VectorPoDStruct). Qed.

Lemma runs_vectorPoDChildTest (s : N) (p : Proc) :
  runs (vectorPoDChildTest now ticks_per_ms mt19937 binary_PoDChild uninitialized s) p tt
       [mkInvocation ("Vector(PoDChild) size " ++ string_of_size_t s)
          (VectorPoDChild (vector_n s (PoDChild_ctor uninitialized))) 10 false] 80.
Proof. apply (runs_call_test binary_PoDChild VectorPoDChild). Qed.

Ltac step lem := eapply (runs_bind _ _ _ tt _ [_] _ 80%N); [apply lem|].

Lemma runs_main_body (p : Proc) :
  runs (main_body now ticks_per_ms mt19937 uniform_int_distribution
          uniform_real_distribution binary_double binary_uint8
          binary_PoDStruct binary_PoDChild uninitialized)
       p 0 (benchmark_matrix uninitialized) 880.
Proof.
  unfold main_body. cbv zeta.
  change (to_size_t 1) with 1%N.
  change (to_size_t 16) with 16%N.
  change (to_size_t 64) with 64%N.
  change (to_size_t 1024) with 1024%N.
  change (to_size_t (int_mul 1024 1024)) with 1048576%N.
  change (to_size_t (int_mul (int_mul 1024 1024) 1024)) with 1073741824%N.
  change (to_size_t (int_mul (int_mul 1024 1024) 64)) with 67108864%N.
  change (to_size_t (int_mul 1024 64)) with 65536%N.
  change 880%N with (80 + (80 + (80 + (80 + (80 + (80 + (80 + (80 + (80 + (80 +
                     (80 + 0)))))))))))%N.
  unfold benchmark_matrix.
  do 4 step runs_vectorDoubleTest.
  step runs_vectorCharTest.
  do 5 step runs_vectorPoDStructTest.
  step runs_vectorPoDChildTest.
  apply runs_ret.
Qed.

Local Abbreviation run_main :=
  (main now ticks_per_ms mt19937 seed_mt19937 uniform_int_distribution
        uniform_real_distribution binary_double binary_uint8
        binary_PoDStruct binary_PoDChild uninitialized).

Lemma main_invocations (rd : Z) (w : World) :
  invocations _ (snd (run_main rd w)) = benchmark_matrix uninitialized.
Proof.
  unfold main.
  destruct (runs_main_body (mkProcess mt19937 w (seed_mt19937 rd) 0 []))
    as (_ & _ & _ & Hi & _).
  exact Hi.
Qed.



Lemma main_scalar_payloads (rd : Z) (w : World) :
  scalar_payloads (invocations _ (snd (run_main rd w))) = scalar_matrix.
Proof. rewrite main_invocations. reflexivity. Qed.

Lemma main_engine_untouched (rd : Z) (w : World) :
  random_values _ (snd (run_main rd w)) = 0%N /\
  gen _ (snd (run_main rd w)) = seed_mt19937 rd.
Proof.
  unfold main.
  destruct (runs_main_body (mkProcess mt19937 w (seed_mt19937 rd) 0 []))
    as (_ & Hg & Hr & _ & _).
  split; assumption.
Qed.

End DriverFacts.

Lemma scalar_matrix_all_zero : Forall all_zero scalar_matrix.
Proof. unfold scalar_matrix. repeat constructor; apply vector_n_all. Qed.

(** C10: in any two runs of the program, whatever the seeds
    [random_device] returns, the clocks and the standard output they
    start from, the [Vector(double)] and [Vector(uint8_t)] payloads
    handed to [test] are the same five vectors of zeros; neither run
    draws a random value, and the engine is left in the state its seed
    put it in. *)
Theorem main_payloads_value_initialized
    (now now' : N -> Z) (ticks_per_ms ticks_per_ms' : Z)
    (mt19937 : Type) (seed_mt19937 : Z -> mt19937)
    (uniform_int_distribution : Z -> Z -> mt19937 -> Z * mt19937)
    (uniform_real_distribution : double -> double -> mt19937 -> double * mt19937)
    (binary_double : Serialization (list double))
    (binary_uint8 : Serialization (list uint8_t))
    (binary_PoDStruct : Serialization (list PoD.PoDStruct))
    (binary_PoDChild : Serialization (list PoD.PoDChild))
    (uninitialized uninitialized' : PoD.PoDStruct)
    (rd rd' : Z) (w w' : World) :
  let p := snd (main now ticks_per_ms mt19937 seed_mt19937
                     uniform_int_distribution uniform_real_distribution
                     binary_double binary_uint8 binary_PoDStruct binary_PoDChild
                     uninitialized rd w) in
  let p' := snd (main now' ticks_per_ms' mt19937 seed_mt19937
                      uniform_int_distribution uniform_real_distribution
                      binary_double binary_uint8 binary_PoDStruct binary_PoDChild
                      uninitialized' rd' w') in
  scalar_payloads (invocations _ p) = scalar_payloads (invocations _ p') /\
  scalar_payloads (invocations _ p) = scalar_matrix /\
  Forall all_zero (scalar_payloads (invocations _ p)) /\
  List.length (scalar_payloads (invocations _ p)) = 5%nat /\
  random_values _ p = 0%N /\
  gen _ p = seed_mt19937 rd.
Proof.
  cbv zeta. rewrite !main_scalar_payloads.
  split; [reflexivity|].
  split; [reflexivity|].
  split; [apply scalar_matrix_all_zero|].
  split; [reflexivity|].
  apply main_engine_untouched.
Qed.

(** ** Concrete runs *)

Section Runs.

Import Fixture.

(** C2: [test] with [validateData = true] on a library whose [load]
    gives back an empty vector for the saved [1; 2; 3].  The two loads
    return payloads that differ from the original, nothing compares
    them, and the run ends with the same report and the same output as
    with [validateData = false]. *)
Theorem validateData_not_checked :
  let rw := test frozen ns_per_ms binary_forgetful "lossy" [1; 2; 3] 1 true start in
  saved_payloads (calls (totals (fst rw))) = [[1; 2; 3]; [1; 2; 3]] /\
  loaded_payloads (calls (totals (fst rw))) = [[]; []] /\
  rw = test frozen ns_per_ms binary_forgetful "lossy" [1; 2; 3] 1 false start /\
  cout (snd rw) = header "lossy" ++ report_lines (fst rw).
Proof. vm_compute. repeat split. Qed.

(** C3, as stated, fails: on a clock too coarse to see the operations
    and with a library that writes no bytes for an empty vector, all
    three boost figures are zero, and the three ratios are evaluated
    all the same, to [0 / 0 = NaN], and printed. *)
Lemma ratios_evaluated_on_zero_baseline :
  let rw := test frozen ns_per_ms binary_raw "empty" [] 1 false start in
  let r := fst rw in
  ~ divisions_guarded r /\
  skipn 4 (divisions r) =
    [ (Double.zero, Double.zero); (Double.zero, Double.zero);
      (Double.zero, Double.zero) ] /\
  averageBoostSave r = Double.zero /\
  averageBoostLoad r = Double.zero /\
  boostSize (totals r) = 0%N /\
  cerealSaveP r = Double.div (averageCerealSave r) Double.zero /\
  cerealLoadP r = Double.div (averageCerealLoad r) Double.zero /\
  cerealSizeP r = Double.div (Double.of_N (cerealSize (totals r))) (Double.of_N 0) /\
  cerealSaveP r = Double.nan /\
  cerealLoadP r = Double.nan /\
  cerealSizeP r = Double.nan /\
  In (OutFormat save_format
        [Double.zero; Double.nan; Double.zero; Double.nan; Double.zero])
     (cout (snd rw)) /\
  In (OutFormat load_format [Double.zero; Double.nan; Double.zero]) (cout (snd rw)).
Proof.
  vm_compute. split; [discriminate|]. repeat split; tauto.
Qed.

(** C6, as stated, fails for [T = 0]: on the frozen clock the boost
    average save time is [T = 0] and the cereal one is [2 * T = 0], for
    [numAverages = 1 > 0], and the reported save ratio is not [2.0]. *)
Lemma save_ratio_of_zero_averages :
  let r := fst (test frozen ns_per_ms binary "fast" [1; 2; 3] 1 false start) in
  (0 < 1)%N /\
  averageBoostSave r = Double.zero /\
  averageCerealSave r = Double.mul Double.two (averageBoostSave r) /\
  cerealSaveP r = Double.nan /\
  cerealSaveP r <> Double.two.
Proof. vm_compute. repeat split. discriminate. Qed.

Lemma ratios_unguarded_witness :
  let r := fst (test frozen ns_per_ms binary "fast" [1; 2; 3] 1 false start) in
  Double.is_zero (averageBoostSave r) = true /\
  Double.is_finite (cerealSaveP r) = false.
Proof.
  cbv zeta.
  destruct (ratios_unguarded frozen ns_per_ms binary "fast" [1; 2; 3] 1 false start)
    as (_ & _ & _ & _ & Hsave & _).
  split; [vm_compute; reflexivity|].
  apply Hsave. vm_compute. reflexivity.
Defined.

Lemma report_averages_and_ratios_witness :
  let r := fst (test paced ns_per_ms binary "paced" [1; 2; 3] 10 false start) in
  (0 < 10)%N /\
  averageBoostSave r = Double.one /\
  averageCerealSave r = Double.mul Double.two Double.one /\
  cerealSaveP r = Double.two.
Proof.
  cbv zeta.
  assert (Hn : (0 < 10)%N) by lia.
  assert (HB : averageBoostSave
                 (fst (test paced ns_per_ms binary "paced" [1; 2; 3] 10 false start))
               = Double.one) by (vm_compute; reflexivity).
  assert (HC : averageCerealSave
                 (fst (test paced ns_per_ms binary "paced" [1; 2; 3] 10 false start))
               = Double.mul Double.two Double.one) by (vm_compute; reflexivity).
  split; [exact Hn|]. split; [exact HB|]. split; [exact HC|].
  destruct (report_averages_and_ratios paced ns_per_ms binary
              "paced" [1; 2; 3] 10 false start Hn) as (_ & _ & _ & _ & HT).
  assert (Hv : Double.valid Double.one = true) by (vm_compute; reflexivity).
  assert (Hf : Double.is_finite (Double.mul Double.two Double.one) = true)
    by (vm_compute; reflexivity).
  destruct (HT Double.one HB HC Hv Hf) as [H2 _].
  apply H2. vm_compute. reflexivity.
Defined.

Lemma lcg_uniform_int_range (lo hi : Z) (g : lcg) :
  lo <= hi -> lo <= fst (lcg_uniform_int lo hi g) <= hi.
Proof.
  intros Hle. unfold lcg_uniform_int. cbn [fst].
  pose proof (Z.mod_pos_bound g (hi - lo + 1)). lia.
Defined.

Lemma random_value_string_uniform_witness :
  3 <= fst (lcg_uniform_int 3 30 12345) <= 30 /\
  exists s : string,
    fst (random_value_string lcg lcg_uniform_int 12345) = Some s /\
    Z.of_nat (String.length s) = fst (lcg_uniform_int 3 30 12345).
Proof.
  destruct (random_value_string_uniform lcg lcg_uniform_int lcg_uniform_int_range 12345)
    as (Hn & s & Hs & Hlen & _).
  split; [exact Hn|].
  exists s. rewrite Hs. split; [reflexivity|exact Hlen].
Defined.

(** The randomizing branch of the driver's lambdas, which [main] never
    takes: three bytes are drawn and the engine advances. *)
Example vectorCharTest_randomized :
  let p0 := mkProcess lcg start 7 0 [] in
  let p := snd (vectorCharTest frozen ns_per_ms lcg lcg_uniform_int binary 3 true p0) in
  map inv_data (invocations _ p) = [VectorUInt8 [7; 52; 93]] /\
  random_values _ p = 3%N /\
  gen _ p = lcg_next (lcg_next (lcg_next 7)).
Proof. vm_compute. repeat split. Qed.

Example random_value_string_lcg :
  fst (random_value_string lcg lcg_uniform_int 3) = Some "hbmCuG"%string.
Proof. vm_compute. reflexivity. Qed.

End Runs.

(** * Further properties of the harness *)

Section HarnessExtras.

Variable now : N -> Z.
Variable ticks_per_ms : Z.
Context {DataT : Type} `{DefaultConstructible DataT}.
Variable S : Serialization DataT.

Local Abbreviation run_test := (test now ticks_per_ms S).
Local Abbreviation run_loop := (loop now ticks_per_ms S).
Local Abbreviation elapsed := (elapsed_ms now ticks_per_ms).

(** X1: whatever [numAverages] is, one call of [test] reads the clock
    exactly [8 * numAverages] times and writes exactly seventeen items
    to standard output, after what was there: the five of the header and
    the twelve of the report.  The loop itself prints nothing. *)
Theorem test_reads_and_prints
    (name : string) (data : DataT) (numAverages : N) (v : bool) (w : World) :
  let rw := run_test name data numAverages v w in
  clock_reads (snd rw) = (clock_reads w + 8 * numAverages)%N /\
  cout (snd rw) = cout w ++ header name ++ report_lines (fst rw) /\
  List.length (cout (snd rw)) = (List.length (cout w) + 17)%nat.
Proof.
  cbv zeta. rewrite test_eq. cbv zeta. cbn [fst snd clock_reads cout].
  split; [reflexivity|]. split; [reflexivity|].
  rewrite !length_app. unfold header, report_lines. cbn [List.length].
  reflexivity.
Qed.

Lemma loop_passes (data : DataT) (n : N) (v : bool) (w : World) :
  calls (fst (run_loop data n v w)) =
  passes_calls now ticks_per_ms S data (clock_reads w) (N.to_nat n).
Proof.
  unfold passes_calls.
  induction n as [|n IH] using N.peano_ind.
  - reflexivity.
  - rewrite loop_calls_succ, IH, N2Nat.inj_succ, seq_S, flat_map_app.
    cbn [flat_map]. rewrite app_nil_r, Nat.add_0_l, N2Nat.id. reflexivity.
Qed.

(** X2: the calls [test] makes are [numAverages] repetitions of the
    same four, in the order boost save, boost load, cereal save, cereal
    load.  In pass [i] they are timed between the clock reads
    [8i] and [8i+1], [8i+2] and [8i+3], [8i+4] and [8i+5], [8i+6] and
    [8i+7] after the loop is entered; each load reads the bytes its save
    has just written. *)
Theorem test_call_log
    (name : string) (data : DataT) (numAverages : N) (v : bool) (w : World) :
  calls (totals (fst (run_test name data numAverages v w))) =
  passes_calls now ticks_per_ms S data (clock_reads w) (N.to_nat numAverages).
Proof. rewrite test_totals, loop_passes. reflexivity. Qed.

Lemma loop_loaded_payloads (data : DataT) (n : N) (v : bool) (w : World) :
  loaded_payloads (calls (fst (run_loop data n v w))) =
  flat_map (fun _ =>
              [ load (boost S) (str (save (boost S) empty_ostringstream data))
                     default_value;
                load (cereal S) (str (save (cereal S) empty_ostringstream data))
                     default_value ])
           (seq 0 (N.to_nat n)).
Proof.
  induction n as [|n IH] using N.peano_ind.
  - reflexivity.
  - rewrite loop_calls_succ. unfold loaded_payloads in *.
    rewrite flat_map_app, IH, N2Nat.inj_succ, seq_S, flat_map_app.
    reflexivity.
Qed.

(** X3: when both archives give back the payload they saved, every one
    of the [2 * numAverages] payloads the loads return equals the
    payload handed to [test]. *)
Theorem loaded_payloads_round_trip
    (name : string) (data : DataT) (numAverages : N) (v : bool) (w : World) :
  round_trips (boost S) data ->
  round_trips (cereal S) data ->
  loaded_payloads (calls (totals (fst (run_test name data numAverages v w)))) =
  repeat data (2 * N.to_nat numAverages).
Proof.
  unfold round_trips. intros HB HC.
  rewrite test_totals, loop_loaded_payloads, HB, HC.
  generalize (N.to_nat numAverages) as k. intros k.
  assert (Hk : forall from : nat,
             flat_map (fun _ : nat => [data; data]) (seq from k) =
             repeat data (k + k)).
  { induction k as [|k IH]; intros from.
    - reflexivity.
    - cbn [seq flat_map app]. rewrite IH.
      replace (Datatypes.S k + Datatypes.S k)%nat
        with (Datatypes.S (Datatypes.S (k + k))) by lia.
      reflexivity. }
  rewrite Hk. f_equal. lia.
Qed.

Section Clock.

Hypothesis ticks_positive : 0 < ticks_per_ms.
Hypothesis now_monotone : monotone now.

Lemma now_le_add (k j : N) : now k <= now (k + j).
Proof.
  induction j as [|j IH] using N.peano_ind.
  - rewrite N.add_0_r. lia.
  - rewrite N.add_succ_r. pose proof (now_monotone (k + j)%N). lia.
Qed.

Lemma int64_wrap_small (z : Z) : - 2 ^ 63 <= z < 2 ^ 63 -> int64_wrap z = z.
Proof. intros Hz. unfold int64_wrap. rewrite Z.mod_small; lia. Qed.

(** A timed call between two readings that are non-negative [int64_t]
    tick counts. *)
Lemma elapsed_bounds (k : N) :
  0 <= now k -> now (k + 1) < 2 ^ 63 ->
  0 <= elapsed k /\ ticks_per_ms * elapsed k <= now (k + 1) - now k.
Proof.
  intros Hlo Hhi. unfold elapsed_ms, duration_cast_ms, int64_sub.
  pose proof (now_monotone k) as Hk.
  rewrite N.add_1_r in *.
  rewrite int64_wrap_small by lia.
  rewrite Z.quot_div_nonneg by lia.
  split.
  - apply Z.div_pos; lia.
  - apply Z.mul_div_le. lia.
Qed.

(** The four timed calls of a pass that starts at read [K] and ends at
    read [K + 7]. *)
Lemma pass_bounded (K : N) :
  0 <= now K -> now (K + 7) < 2 ^ 63 ->
  0 <= elapsed K /\ 0 <= elapsed (K + 2) /\
  0 <= elapsed (K + 4) /\ 0 <= elapsed (K + 6) /\
  ticks_per_ms * (elapsed K + elapsed (K + 2) + elapsed (K + 4) + elapsed (K + 6))
  <= now (K + 7) - now K.
Proof.
  intros Hlo Hhi.
  assert (M : forall i j : N, (i <= j)%N -> now (K + i) <= now (K + j)).
  { intros i j Hij. replace (K + j)%N with (K + i + (j - i))%N by lia.
    apply now_le_add. }
  pose proof (M 0 1 ltac:(lia))%N as M01. pose proof (M 1 2 ltac:(lia))%N as M12.
  pose proof (M 2 3 ltac:(lia))%N as M23. pose proof (M 3 4 ltac:(lia))%N as M34.
  pose proof (M 4 5 ltac:(lia))%N as M45. pose proof (M 5 6 ltac:(lia))%N as M56.
  pose proof (M 6 7 ltac:(lia))%N as M67.
  rewrite N.add_0_r in M01.
  destruct (elapsed_bounds K) as [H0 B0]; [lia|lia|].
  destruct (elapsed_bounds (K + 2)) as [H2 B2];
    [lia|replace (K + 2 + 1)%N with (K + 3)%N by lia; lia|].
  destruct (elapsed_bounds (K + 4)) as [H4 B4];
    [lia|replace (K + 4 + 1)%N with (K + 5)%N by lia; lia|].
  destruct (elapsed_bounds (K + 6)) as [H6 B6];
    [lia|replace (K + 6 + 1)%N with (K + 7)%N by lia; lia|].
  replace (K + 2 + 1)%N with (K + 3)%N in B2 by lia.
  replace (K + 4 + 1)%N with (K + 5)%N in B4 by lia.
  replace (K + 6 + 1)%N with (K + 7)%N in B6 by lia.
  repeat split; lia.
Qed.

Lemma loop_totals_bounded (data : DataT) (n : N) (v : bool) (w : World) :
  0 <= now (clock_reads w) ->
  ((1 <= n)%N -> now (clock_reads w + 8 * n - 1) < 2 ^ 63) ->
  let t := fst (run_loop data n v w) in
  0 <= totalBoostSave t /\ 0 <= totalBoostLoad t /\
  0 <= totalCerealSave t /\ 0 <= totalCerealLoad t /\
  ticks_per_ms * (totalBoostSave t + totalBoostLoad t +
                  totalCerealSave t + totalCerealLoad t)
  <= (if (n =? 0)%N then 0
      else now (clock_reads w + 8 * n - 1) - now (clock_reads w)).
Proof.
  intros Hlo. induction n as [|n IH] using N.peano_ind; intros Hhi.
  - cbn. lia.
  - cbv zeta in *. rewrite loop_succ, iteration_eq, loop_world.
    cbn [fst clock_reads totalBoostSave totalBoostLoad totalCerealSave totalCerealLoad].
    set (K := (clock_reads w + 8 * n)%N) in *.
    replace (N.succ n =? 0)%N with false by (symmetry; apply N.eqb_neq; lia).
    replace (clock_reads w + 8 * N.succ n - 1)%N with (K + 7)%N in * by lia.
    specialize (Hhi ltac:(lia)).
    assert (HK : now (clock_reads w) <= now K) by apply now_le_add.
    assert (Hprev : (1 <= n)%N -> now (K - 1) <= now K).
    { intros Hn. replace K with (K - 1 + 1)%N at 2 by lia. apply now_le_add. }
    destruct (pass_bounded K ltac:(lia) Hhi) as (H0 & H2 & H4 & H6 & HB).
    destruct IH as (I1 & I2 & I3 & I4 & I5).
    { intros Hn. pose proof (now_le_add K 7). specialize (Hprev Hn). lia. }
    destruct (n =? 0)%N eqn:En.
    + repeat split; lia.
    + apply N.eqb_neq in En. specialize (Hprev ltac:(lia)). repeat split; lia.
Qed.

(** X4: on a clock that never runs backwards and whose readings are
    non-negative [int64_t] tick counts, for [numAverages >= 1] the four
    accumulated totals are not negative, and together they never exceed
    the time that passed between the first clock read of the loop and
    its last, number [8 * numAverages - 1]: truncation to whole
    milliseconds and the time between the timed calls are lost, never
    gained. *)
Theorem totals_within_wall_time
    (name : string) (data : DataT) (numAverages : N) (v : bool) (w : World) :
  (1 <= numAverages)%N ->
  0 <= now (clock_reads w) ->
  now (clock_reads w + 8 * numAverages - 1) < 2 ^ 63 ->
  let t := totals (fst (run_test name data numAverages v w)) in
  0 <= totalBoostSave t /\ 0 <= totalBoostLoad t /\
  0 <= totalCerealSave t /\ 0 <= totalCerealLoad t /\
  ticks_per_ms * (totalBoostSave t + totalBoostLoad t +
                  totalCerealSave t + totalCerealLoad t)
  <= now (clock_reads w + 8 * numAverages - 1) - now (clock_reads w).
Proof.
  intros Hn Hlo Hhi. cbv zeta. rewrite test_totals.
  pose proof (loop_totals_bounded data numAverages v
                (mkWorld (clock_reads w) (cout w ++ header name)) Hlo
                (fun _ => Hhi)) as Hb.
  cbv zeta in Hb. cbn [clock_reads] in Hb.
  replace (numAverages =? 0)%N with false in Hb by (symmetry; apply N.eqb_neq; lia).
  exact Hb.
Qed.

End Clock.

End HarnessExtras.

(** ** Integers as doubles *)

Module DoubleConversions.

Import Double.

Lemma iter_pos_nat {A} (f : A -> A) (n : positive) (x : A) :
  iter_pos f n x = Nat.iter (Pos.to_nat n) f x.
Proof.
  revert x. induction n as [n IH|n IH|]; intros x; cbn [iter_pos].
  - rewrite !IH, Pos2Nat.inj_xI, <- Nat.iter_succ_r, <- Nat.iter_add.
    f_equal. lia.
  - rewrite !IH, Pos2Nat.inj_xO, <- Nat.iter_add. f_equal. lia.
  - reflexivity.
Qed.

(** Shifting right by fewer places than the mantissa has digits leaves
    a positive mantissa with that many digits fewer. *)
Lemma shr_iter_digits (n : nat) : forall (p : positive) (r s : bool),
  (n < Pos.to_nat (digits2_pos p))%nat ->
  exists q r' s',
    Nat.iter n shr_1 (Build_shr_record (Zpos p) r s)
      = Build_shr_record (Zpos q) r' s' /\
    (Pos.to_nat (digits2_pos q) = Pos.to_nat (digits2_pos p) - n)%nat.
Proof.
  induction n as [|n IH]; intros p r s Hn.
  - exists p, r, s. split; [reflexivity|lia].
  - rewrite Nat.iter_succ_r.
    destruct p as [p|p|]; cbn [digits2_pos] in Hn; rewrite ?Pos2Nat.inj_succ in Hn.
    + cbn [shr_1].
      destruct (IH p true (r || s)%bool ltac:(lia)) as (q & r' & s' & E & D).
      exists q, r', s'. split; [exact E|].
      cbn [digits2_pos]. rewrite Pos2Nat.inj_succ. lia.
    + cbn [shr_1].
      destruct (IH p false (r || s)%bool ltac:(lia)) as (q & r' & s' & E & D).
      exists q, r', s'. split; [exact E|].
      cbn [digits2_pos]. rewrite Pos2Nat.inj_succ. lia.
    + cbn in Hn. lia.
Qed.

Lemma digits2_pos_succ (q : positive) :
  digits2_pos (Pos.succ q) = digits2_pos q \/
  digits2_pos (Pos.succ q) = Pos.succ (digits2_pos q).
Proof.
  induction q as [q IH|q IH|]; cbn [Pos.succ digits2_pos].
  - destruct IH as [-> | ->]; auto.
  - auto.
  - auto.
Qed.

Lemma digits2_pos_size (p : positive) : digits2_pos p = Pos.size p.
Proof. induction p as [p IH|p IH|]; cbn; congruence. Qed.

Lemma digits2_pos_bound (p : positive) (k : Z) :
  0 <= k -> Zpos p < 2 ^ k -> Zpos (digits2_pos p) <= k.
Proof.
  intros Hk Hp. rewrite digits2_pos_size.
  pose proof (Pos.size_le p) as Hs.
  apply Pos2Z.pos_le_pos in Hs. rewrite Pos2Z.inj_pow in Hs.
  change (Zpos p~0) with (2 * Zpos p) in Hs.
  assert (Hlt : 2 ^ Zpos (Pos.size p) < 2 ^ (k + 1)).
  { rewrite Z.pow_add_r by lia. change (2 ^ 1) with 2. lia. }
  apply Z.pow_lt_mono_r_iff in Hlt; lia.
Qed.

(** [shr_fexp] on a positive mantissa whose exponent is not below the
    least one: the mantissa stays positive and is cut to at most 53
    digits, and the exponent grows by the number of digits cut. *)
Lemma shr_fexp_positive (p : positive) (e : Z) (l : location) :
  -1074 <= e ->
  exists q r s,
    shr_fexp prec emax (Zpos p) e l =
      (Build_shr_record (Zpos q) r s, e + Z.max (Zpos (digits2_pos p) - 53) 0) /\
    Zpos (digits2_pos q) = Z.min (Zpos (digits2_pos p)) 53.
Proof.
  intros He. unfold shr_fexp, fexp, emin, prec, emax. cbn [Zdigits2].
  set (d := Zpos (digits2_pos p)).
  destruct (Z_le_gt_dec d 53) as [Hd|Hd].
  - replace (Z.max (d - 53) 0) with 0 by lia.
    assert (Hn : Z.max (d + e - 53) (3 - 1024 - 53) - e <= 0) by lia.
    unfold shr.
    destruct (Z.max (d + e - 53) (3 - 1024 - 53) - e) as [|n|n] eqn:En; try lia.
    + destruct l as [|[| |]]; cbn [shr_record_of_loc];
        eexists _, _, _; (split; [rewrite Z.add_0_r; reflexivity|fold d; lia]).
    + destruct l as [|[| |]]; cbn [shr_record_of_loc];
        eexists _, _, _; (split; [rewrite Z.add_0_r; reflexivity|fold d; lia]).
  - replace (Z.max (d + e - 53) (3 - 1024 - 53) - e) with (d - 53) by lia.
    replace (Z.max (d - 53) 0) with (d - 53) by lia.
    unfold shr. destruct (d - 53) as [|n|n] eqn:En; try lia.
    rewrite iter_pos_nat.
    assert (Hlt : (Pos.to_nat n < Pos.to_nat (digits2_pos p))%nat) by (subst d; lia).
    assert (Hrec : exists r s,
               shr_record_of_loc (Zpos p) l = Build_shr_record (Zpos p) r s).
    { destruct l as [|[| |]]; cbn; eauto. }
    destruct Hrec as (r0 & s0 & ->).
    destruct (shr_iter_digits (Pos.to_nat n) p r0 s0 Hlt) as (q & r' & s' & E & D).
    exists q, r', s'. rewrite E. split; [reflexivity|]. subst d. lia.
Qed.

Lemma round_nearest_even_positive (q : positive) (l : location) :
  exists q', round_nearest_even (Zpos q) l = Zpos q' /\
             Zpos (digits2_pos q') <= Zpos (digits2_pos q) + 1.
Proof.
  assert (Hs : Zpos (digits2_pos (Pos.succ q)) <= Zpos (digits2_pos q) + 1).
  { destruct (digits2_pos_succ q) as [-> | ->]; lia. }
  assert (Hadd : Zpos q + 1 = Zpos (Pos.succ q)) by lia.
  destruct l as [|[| |]]; cbn [round_nearest_even];
    try destruct (Z.even (Zpos q)); rewrite ?Hadd; eexists; split;
    try reflexivity; lia.
Qed.

(** The double nearest to a positive integer is positive: a finite
    number, or infinity when the integer is too large. *)
Lemma of_Z_positive (p : positive) :
  exists e'',
    (exists m, of_Z (Zpos p) = S754_finite false m e'' /\ e'' <= 971) \/
    (of_Z (Zpos p) = S754_infinity false /\ 971 < e'').
Proof.
  unfold of_Z, binary_normalize, binary_round.
  destruct (shl_align p 0 (fexp prec emax (Zpos (digits2_pos p) + 0)))
    as [mz ez] eqn:Es.
  assert (Hez : -1074 <= ez).
  { unfold shl_align, fexp, emin, prec, emax in Es.
    destruct (Z.max (Zpos (digits2_pos p) + 0 - 53) (3 - 1024 - 53) - 0) eqn:E;
      inversion Es; subst; lia. }
  unfold binary_round_aux.
  destruct (shr_fexp_positive mz ez loc_Exact Hez) as (q & r & s & -> & Dq).
  cbn [shr_m].
  destruct (round_nearest_even_positive q
              (loc_of_shr_record (Build_shr_record (Zpos q) r s))) as (q' & -> & Dq').
  destruct (shr_fexp_positive q' (ez + Z.max (Zpos (digits2_pos mz) - 53) 0) loc_Exact
              ltac:(lia)) as (q'' & r'' & s'' & -> & _).
  cbn [shr_m]. eexists.
  destruct (_ <=? _) eqn:E; [left|right].
  - eexists. split; [reflexivity|]. apply Z.leb_le in E. exact E.
  - split; [reflexivity|]. apply Z.leb_gt in E. exact E.
Qed.

Lemma of_N_positive (n : N) :
  (0 < n)%N -> is_zero (of_N n) = false /\ is_nan (of_N n) = false.
Proof.
  intros Hn. destruct n as [|p]; [lia|]. unfold of_N. cbn [Z.of_N].
  destruct (of_Z_positive p) as (e & [(m & -> & _) | (-> & _)]); split; reflexivity.
Qed.

(** Zero divided by a positive integer is zero. *)
Lemma div_zero_of_N (n : N) : (0 < n)%N -> div (of_Z 0) (of_N n) = zero.
Proof.
  intros Hn. destruct n as [|p]; [lia|]. unfold of_N. cbn [Z.of_N].
  destruct (of_Z_positive p) as (e & [(m & -> & _) | (-> & _)]); reflexivity.
Qed.

End DoubleConversions.

(** ** Operations too fast for the clock *)

Section SubMillisecond.

Variable now : N -> Z.
Variable ticks_per_ms : Z.
Context {DataT : Type} `{DefaultConstructible DataT}.
Variable S : Serialization DataT.

Hypothesis fast : sub_millisecond now ticks_per_ms.

Lemma elapsed_fast (k : N) : elapsed_ms now ticks_per_ms k = 0.
Proof.
  unfold elapsed_ms, duration_cast_ms, int64_sub, int64_wrap.
  pose proof (fast k) as Hk.
  pose proof (Z.mod_pos_bound (now (N.succ k) - now k + 2 ^ 63) (2 ^ 64) ltac:(lia)) as Hm.
  destruct (Z_lt_le_dec (now (N.succ k) - now k) (2 ^ 63)) as [Hs|Hs].
  - rewrite Z.mod_small by lia. apply Z.quot_small. lia.
  - apply Z.quot_small_iff; lia.
Qed.

Lemma loop_totals_fast (data : DataT) (n : N) (v : bool) (w : World) :
  let t := fst (loop now ticks_per_ms S data n v w) in
  totalBoostSave t = 0 /\ totalBoostLoad t = 0 /\
  totalCerealSave t = 0 /\ totalCerealLoad t = 0.
Proof.
  induction n as [|n IH] using N.peano_ind.
  - repeat split.
  - cbv zeta in *. rewrite loop_succ, iteration_eq.
    cbn [fst totalBoostSave totalBoostLoad totalCerealSave totalCerealLoad].
    rewrite !elapsed_fast. destruct IH as (-> & -> & -> & ->). repeat split.
Qed.

(** X5: when less than a millisecond passes between any two clock
    reads, every timed call counts as 0 ms: for any [numAverages > 0]
    the four totals and the four averages are zero, and the save and
    load ratios printed for cereal are [0.0 / 0.0], not a number. *)
Theorem sub_millisecond_report
    (name : string) (data : DataT) (numAverages : N) (v : bool) (w : World) :
  (0 < numAverages)%N ->
  let r := fst (test now ticks_per_ms S name data numAverages v w) in
  (totalBoostSave (totals r) = 0 /\ totalBoostLoad (totals r) = 0 /\
   totalCerealSave (totals r) = 0 /\ totalCerealLoad (totals r) = 0) /\
  (averageBoostSave r = Double.zero /\ averageBoostLoad r = Double.zero /\
   averageCerealSave r = Double.zero /\ averageCerealLoad r = Double.zero) /\
  cerealSaveP r = Double.nan /\
  cerealLoadP r = Double.nan.
Proof.
  intros Hn r.
  assert (Ht : totalBoostSave (totals r) = 0 /\ totalBoostLoad (totals r) = 0 /\
               totalCerealSave (totals r) = 0 /\ totalCerealLoad (totals r) = 0).
  { subst r. rewrite test_totals. apply loop_totals_fast. }
  split; [exact Ht|].
  assert (Hr : r = report_of numAverages (totals r)) by apply test_report.
  destruct Ht as (H1 & H2 & H3 & H4).
  rewrite Hr. unfold report_of.
  cbn [averageBoostSave averageBoostLoad averageCerealSave averageCerealLoad
       cerealSaveP cerealLoadP totals].
  rewrite H1, H2, H3, H4, (DoubleConversions.div_zero_of_N numAverages Hn).
  repeat split.
Qed.

End SubMillisecond.
(** ** Equal sizes *)

Module DoubleQuotients.

Import Double.

Lemma digits2_pos_iter_xO (p n : positive) :
  Zpos (digits2_pos (Pos.iter xO p n)) = Zpos (digits2_pos p) + Zpos n.
Proof.
  induction n as [|n IH] using Pos.peano_ind.
  - cbn. lia.
  - rewrite Pos.iter_succ. cbn [digits2_pos]. lia.
Qed.

Lemma shl_align_of_Z (p : positive) :
  exists mz ez,
    shl_align p 0 (fexp prec emax (Zpos (digits2_pos p) + 0)) = (mz, ez) /\
    -1074 <= ez <= 0 /\
    Zpos (digits2_pos mz) = Z.max (Zpos (digits2_pos p)) 53.
Proof.
  unfold shl_align, fexp, emin, prec, emax.
  destruct (Z.max (Zpos (digits2_pos p) + 0 - 53) (3 - 1024 - 53) - 0)
    as [|n|n] eqn:E.
  - exists p, 0. split; [reflexivity|]. lia.
  - exists p, 0. split; [reflexivity|]. lia.
  - eexists _, _. split; [reflexivity|]. rewrite digits2_pos_iter_xO. lia.
Qed.

(** The double nearest to a positive integer below [2 ^ 64] is finite. *)
Lemma of_Z_finite (p : positive) :
  Zpos p < 2 ^ 64 -> exists m e, of_Z (Zpos p) = S754_finite false m e.
Proof.
  intros Hp.
  pose proof (DoubleConversions.digits2_pos_bound p 64 ltac:(lia) Hp) as Hd.
  unfold of_Z, binary_normalize, binary_round.
  destruct (shl_align_of_Z p) as (mz & ez & -> & Hez & Hmz).
  unfold binary_round_aux.
  destruct (DoubleConversions.shr_fexp_positive mz ez loc_Exact ltac:(lia))
    as (q & r & s & -> & Dq).
  cbn [shr_m].
  destruct (DoubleConversions.round_nearest_even_positive q
              (loc_of_shr_record (Build_shr_record (Zpos q) r s))) as (q' & -> & Dq').
  destruct (DoubleConversions.shr_fexp_positive q'
              (ez + Z.max (Zpos (digits2_pos mz) - 53) 0) loc_Exact ltac:(lia))
    as (q'' & r'' & s'' & -> & _).
  cbn [shr_m].
  replace (_ <=? _) with true by (symmetry; apply Z.leb_le; unfold emax, prec; lia).
  eauto.
Qed.

(** A finite non-zero double divided by itself is [1.0]. *)
Lemma div_self (s : bool) (m : positive) (e : Z) :
  div (S754_finite s m e) (S754_finite s m e) = one.
Proof.
  unfold div, SFdiv, SFdiv_core_binary. cbn [Zdigits2].
  replace (Zpos (digits2_pos m) + e - (Zpos (digits2_pos m) + e)) with 0 by lia.
  replace (e - e) with 0 by lia.
  change (Z.min (fexp prec emax 0) 0) with (-53).
  change (0 - -53) with 53.
  cbv iota beta.
  rewrite (DoubleFacts.div_eucl_shiftl m 53) by lia.
  rewrite DoubleFacts.new_location_zero, xorb_nilpotent.
  reflexivity.
Qed.

End DoubleQuotients.

Section EqualSizes.

Variable now : N -> Z.
Variable ticks_per_ms : Z.
Context {DataT : Type} `{DefaultConstructible DataT}.
Variable S : Serialization DataT.

(** X6: when the two libraries write the same number of bytes for the
    payload, more than none and a number a [size_t] holds, the size
    ratio [test] reports after at least one pass is exactly [1.0]. *)
Theorem equal_sizes_ratio_one
    (name : string) (data : DataT) (numAverages : N) (v : bool) (w : World) :
  (1 <= numAverages)%N ->
  tellp (save (cereal S) empty_ostringstream data) =
  tellp (save (boost S) empty_ostringstream data) ->
  (0 < tellp (save (boost S) empty_ostringstream data) < 2 ^ 64)%N ->
  cerealSizeP (fst (test now ticks_per_ms S name data numAverages v w)) = Double.one.
Proof.
  intros Hn Heq Hs.
  set (r := fst (test now ticks_per_ms S name data numAverages v w)).
  assert (Hr : r = report_of numAverages (totals r)) by apply test_report.
  assert (HB : boostSize (totals r) = tellp (save (boost S) empty_ostringstream data)).
  { subst r. rewrite test_totals, loop_boostSize.
    replace (numAverages =? 0)%N with false by (symmetry; apply N.eqb_neq; lia).
    reflexivity. }
  assert (HC : cerealSize (totals r) = tellp (save (boost S) empty_ostringstream data)).
  { subst r. rewrite test_totals, loop_cerealSize.
    replace (numAverages =? 0)%N with false by (symmetry; apply N.eqb_neq; lia).
    exact Heq. }
  rewrite Hr. unfold report_of. cbn [cerealSizeP]. rewrite HB, HC.
  destruct (tellp (save (boost S) empty_ostringstream data)) as [|p]; [lia|].
  unfold Double.of_N. cbn [Z.of_N].
  destruct (DoubleQuotients.of_Z_finite p) as (m & e & ->).
  - change (2 ^ 64) with (Z.of_N (2 ^ 64)). lia.
  - apply DoubleQuotients.div_self.
Qed.

End EqualSizes.
(** ** The other random strings and the randomizing branch *)

Section RandomExtras.

Variable mt19937 : Type.
Variable uniform_int_distribution : Z -> Z -> mt19937 -> Z * mt19937.
Variable uniform_real_distribution : double -> double -> mt19937 -> double * mt19937.

Hypothesis uniform_int_range :
  forall (lo hi : Z) (g : mt19937),
    lo <= hi -> lo <= fst (uniform_int_distribution lo hi g) <= hi.

(** X7: [random_binary_string<N>] returns a string of exactly [N]
    characters, each of them '0' or '1', and makes exactly [N] draws of
    [uniform_int_distribution<char>('0', '1')]. *)
Theorem random_binary_string_digits (N : N) (gen : mt19937) :
  let sg := random_binary_string mt19937 uniform_int_distribution N gen in
  String.length (fst sg) = N.to_nat N /\
  snd sg = after_chars mt19937 uniform_int_distribution "0" "1" (N.to_nat N) gen /\
  forall i, (i < N.to_nat N)%nat ->
    String.get i (fst sg) = Some "0"%char \/ String.get i (fst sg) = Some "1"%char.
Proof.
  cbv zeta. unfold random_binary_string.
  destruct (fill_uniform_spec mt19937 uniform_int_distribution "0" "1" " "
              (N.to_nat N) gen) as (s & -> & Hlen & Hget).
  cbn [fst snd]. split; [exact Hlen|]. split; [reflexivity|].
  intros i Hi. rewrite (Hget i Hi).
  pose proof (uniform_int_range 48 49
                (after_chars mt19937 uniform_int_distribution "0" "1" i gen)
                ltac:(lia)) as Hr.
  change (Z_of_char "0") with 48. change (Z_of_char "1") with 49.
  assert (Hc : fst (uniform_int_distribution 48 49
                      (after_chars mt19937 uniform_int_distribution "0" "1" i gen)) = 48 \/
               fst (uniform_int_distribution 48 49
                      (after_chars mt19937 uniform_int_distribution "0" "1" i gen)) = 49)
    by lia.
  destruct Hc as [-> | ->]; [left|right]; reflexivity.
Qed.

Variable now : N -> Z.
Variable ticks_per_ms : Z.
Variable binary_double : Serialization (list double).
Variable binary_uint8 : Serialization (list uint8_t).

Local Abbreviation Proc := (Process mt19937).


Lemma rngC_spec (p : Proc) :
  0 <= fst (rngC mt19937 uniform_int_distribution p) <= 255 /\
  world _ (snd (rngC mt19937 uniform_int_distribution p)) = world _ p /\
  invocations _ (snd (rngC mt19937 uniform_int_distribution p)) = invocations _ p /\
  random_values _ (snd (rngC mt19937 uniform_int_distribution p)) =
    N.succ (random_values _ p).
Proof.
  unfold rngC, random_value_integral.
  pose proof (uniform_int_range 0 255 (gen _ p) ltac:(lia)) as Hr.
  destruct (uniform_int_distribution 0 255 (gen _ p)) as [x g].
  cbn [fst snd world invocations random_values] in *. repeat split; lia.
Qed.







End RandomExtras.
(** ** Serialization of [PoDStruct] and [PoDChild] *)

Section SerializeFacts.

Context {B : Type}.
Variable cs : Codecs B.

Local Abbreviation oar := (output_archive cs).
Local Abbreviation iar := (input_archive cs).

Lemma PoDStruct_eta (x : PoD.PoDStruct) :
  PoD.mkPoDStruct (PoD.a x) (PoD.b x) (PoD.c x) (PoD.d x) = x.
Proof. destruct x; reflexivity. Qed.

Lemma PoDChild_eta (x : PoD.PoDChild) : PoD.mkPoDChild (PoD.base x) (PoD.v x) = x.
Proof. destruct x; reflexivity. Qed.

Lemma PoDStruct_save (ar : list B) (x : PoD.PoDStruct) :
  PoDStruct_serialize oar ar x = Some (ar ++ PoDStruct_bytes cs x, x).
Proof.
  unfold PoDStruct_serialize, PoDStruct_bytes, output_archive, write_field.
  cbn. rewrite PoDStruct_eta, <- !app_assoc. reflexivity.
Qed.

Lemma PoDStruct_save_version (ar : list B) (version : N) (x : PoD.PoDStruct) :
  PoDStruct_serialize_version oar ar version x = Some (ar ++ PoDStruct_bytes cs x, x).
Proof.
  unfold PoDStruct_serialize_version, PoDStruct_bytes, output_archive, write_field.
  cbn. rewrite PoDStruct_eta, <- !app_assoc. reflexivity.
Qed.

Lemma PoDChild_save (ar : list B) (x : PoD.PoDChild) :
  PoDChild_serialize oar ar x = Some (ar ++ PoDChild_bytes cs x, x).
Proof.
  unfold PoDChild_serialize. cbv zeta. rewrite PoDStruct_save.
  unfold PoDChild_bytes. cbn. rewrite PoDChild_eta, <- !app_assoc. reflexivity.
Qed.

Lemma PoDChild_save_version (ar : list B) (base_version version : N)
    (x : PoD.PoDChild) :
  PoDChild_serialize_version oar base_version ar version x =
  Some (ar ++ PoDChild_bytes cs x, x).
Proof.
  unfold PoDChild_serialize_version. rewrite PoDStruct_save_version.
  unfold PoDChild_bytes. cbn. rewrite PoDChild_eta, <- !app_assoc. reflexivity.
Qed.

(** X10: into one output archive both overloads of
    [PoDChild::serialize] hand the same fields in the same order: the
    base fields [a], [b], [c], [d], then [v].  What they write comes
    after what the archive holds already, and neither changes the
    object. *)
Theorem PoDChild_save_overloads_agree
    (ar : list B) (base_version version : N) (x : PoD.PoDChild) :
  PoDChild_serialize oar ar x = Some (ar ++ PoDChild_bytes cs x, x) /\
  PoDChild_serialize_version oar base_version ar version x =
    Some (ar ++ PoDChild_bytes cs x, x) /\
  PoDChild_bytes cs x =
    enc (codec_int32 cs) (PoD.a (PoD.base x)) ++
    enc (codec_int64 cs) (PoD.b (PoD.base x)) ++
    enc (codec_float cs) (PoD.c (PoD.base x)) ++
    enc (codec_double cs) (PoD.d (PoD.base x)) ++
    enc (codec_vector_float cs) (PoD.v x).
Proof.
  split; [apply PoDChild_save|]. split; [apply PoDChild_save_version|].
  unfold PoDChild_bytes, PoDStruct_bytes. rewrite <- !app_assoc. reflexivity.
Qed.

(** The frame of the one-argument overload, for any archive at all: it
    hands the archive a copy of the base, so the base comes out as it
    went in. *)
Lemma PoDChild_serialize_keeps_base {Ar} (ops : ArchiveOps Ar)
    (ar ar' : Ar) (x x' : PoD.PoDChild) :
  PoDChild_serialize ops ar x = Some (ar', x') -> PoD.base x' = PoD.base x.
Proof.
  unfold PoDChild_serialize, obind. cbv zeta.
  destruct (PoDStruct_serialize ops ar (PoD.base x)) as [[ar1 t]|]; [|discriminate].
  destruct (amp_vector_float ops ar1 (PoD.v x)) as [[ar2 v]|]; [|discriminate].
  intros E. inversion E. reflexivity.
Qed.

Hypothesis codecs_lawful : all_lawful cs.

Lemma PoDStruct_load (x y : PoD.PoDStruct) (rest : list B) :
  PoDStruct_serialize iar (PoDStruct_bytes cs x ++ rest) y = Some (rest, x).
Proof.
  destruct codecs_lawful as (L1 & L2 & L3 & L4 & _).
  unfold PoDStruct_serialize, PoDStruct_bytes, input_archive, read_field, obind.
  cbn [amp_int32 amp_int64 amp_float amp_double].
  rewrite <- !app_assoc, L1, L2, L3, L4, PoDStruct_eta. reflexivity.
Qed.

Lemma PoDStruct_load_version (version : N) (x y : PoD.PoDStruct) (rest : list B) :
  PoDStruct_serialize_version iar (PoDStruct_bytes cs x ++ rest) version y
  = Some (rest, x).
Proof.
  destruct codecs_lawful as (L1 & L2 & L3 & L4 & _).
  unfold PoDStruct_serialize_version, PoDStruct_bytes, input_archive, read_field, obind.
  cbn [amp_int32 amp_int64 amp_float amp_double].
  rewrite <- !app_assoc, L1, L2, L3, L4, PoDStruct_eta. reflexivity.
Qed.

(** X11: when the archive can read back each field it writes, it can
    read back a [PoDStruct], by either overload of
    [PoDStruct::serialize]: loading what was saved of [x] into any
    object [y] gives [x], and leaves of the stream exactly what followed
    the record. *)
Theorem PoDStruct_round_trip
    (version : N) (x y : PoD.PoDStruct) (before rest : list B) :
  exists written : list B,
    PoDStruct_serialize oar before x = Some (before ++ written, x) /\
    PoDStruct_serialize_version oar before version x = Some (before ++ written, x) /\
    PoDStruct_serialize iar (written ++ rest) y = Some (rest, x) /\
    PoDStruct_serialize_version iar (written ++ rest) version y = Some (rest, x).
Proof.
  exists (PoDStruct_bytes cs x).
  split; [apply PoDStruct_save|]. split; [apply PoDStruct_save_version|].
  split; [apply PoDStruct_load|apply PoDStruct_load_version].
Qed.

(** X12: by the two-argument overload, which goes through
    [base_object], a [PoDChild] is read back whole: loading what was
    saved of [x] into any object [y] gives [x]. *)
Theorem PoDChild_round_trip_version
    (base_version version : N) (x y : PoD.PoDChild) (before rest : list B) :
  exists written : list B,
    PoDChild_serialize_version oar base_version before version x
      = Some (before ++ written, x) /\
    PoDChild_serialize_version iar base_version (written ++ rest) version y
      = Some (rest, x).
Proof.
  exists (PoDChild_bytes cs x).
  split; [apply PoDChild_save_version|].
  destruct codecs_lawful as (_ & _ & _ & _ & L5).
  unfold PoDChild_serialize_version, PoDChild_bytes.
  rewrite <- app_assoc, PoDStruct_load_version.
  unfold obind, input_archive, read_field. cbn [amp_vector_float].
  rewrite L5, PoDChild_eta. reflexivity.
Qed.

(** X13: by the one-argument overload, which goes through
    [static_cast<PoDStruct>], a [PoDChild] is not read back whole.  The
    load consumes the whole record and restores [v], but the base fields
    are read into the temporary copy: the object keeps the base it had
    before the load.  So the round trip gives [x] back only when the
    object loaded into already had the base of [x]. *)
Theorem PoDChild_round_trip_loses_base
    (x y : PoD.PoDChild) (before rest : list B) :
  exists written : list B,
    PoDChild_serialize oar before x = Some (before ++ written, x) /\
    PoDChild_serialize iar (written ++ rest) y
      = Some (rest, PoD.mkPoDChild (PoD.base y) (PoD.v x)) /\
    (PoDChild_serialize iar (written ++ rest) y = Some (rest, x) <->
     PoD.base y = PoD.base x).
Proof.
  exists (PoDChild_bytes cs x).
  split; [apply PoDChild_save|].
  destruct codecs_lawful as (_ & _ & _ & _ & L5).
  assert (Hload : PoDChild_serialize iar (PoDChild_bytes cs x ++ rest) y
                  = Some (rest, PoD.mkPoDChild (PoD.base y) (PoD.v x))).
  { unfold PoDChild_serialize, PoDChild_bytes. cbv zeta.
    rewrite <- app_assoc, PoDStruct_load.
    unfold obind, input_archive, read_field. cbn [amp_vector_float].
    rewrite L5. reflexivity. }
  split; [exact Hload|]. rewrite Hload. split.
  - intros E. inversion E as [E']. rewrite <- E'. reflexivity.
  - intros E. rewrite E, PoDChild_eta. reflexivity.
Qed.

End SerializeFacts.

(** ** What the driver prints *)

Lemma combine_append {A C} (l1 l2 : list A) (m1 m2 : list C) :
  List.length l1 = List.length m1 ->
  combine (l1 ++ l2) (m1 ++ m2) = combine l1 m1 ++ combine l2 m2.
Proof.
  revert m1. induction l1 as [|x l1 IH]; intros [|y m1] E; try discriminate E.
  - reflexivity.
  - cbn. f_equal. apply IH. injection E as E. exact E.
Qed.

Lemma blocks_app (n1 n2 : list string) (b1 b2 : list (list Output)) :
  List.length n1 = List.length b1 ->
  blocks (n1 ++ n2) (b1 ++ b2) = blocks n1 b1 ++ blocks n2 b2.
Proof.
  intros E. unfold blocks. rewrite combine_append by exact E. apply flat_map_app.
Qed.

Lemma length_blocks (names : list string) (bodies : list (list Output)) :
  List.length bodies = List.length names ->
  Forall (fun b => List.length b = 12%nat) bodies ->
  List.length (blocks names bodies) = (17 * List.length names)%nat.
Proof.
  revert bodies. induction names as [|n names IH]; intros [|b bodies] E HF;
    try discriminate E.
  - reflexivity.
  - inversion HF as [|? ? Hb HF']; subst.
    unfold blocks in *. cbn [combine flat_map fst snd].
    rewrite !length_app, Hb, IH by (try assumption; injection E as E; exact E).
    cbn [List.length header]. lia.
Qed.

Section DriverOutput.

Variable now : N -> Z.
Variable ticks_per_ms : Z.
Variable mt19937 : Type.
Variable seed_mt19937 : Z -> mt19937.
Variable uniform_int_distribution : Z -> Z -> mt19937 -> Z * mt19937.
Variable uniform_real_distribution : double -> double -> mt19937 -> double * mt19937.
Variable binary_double : Serialization (list double).
Variable binary_uint8 : Serialization (list uint8_t).
Variable binary_PoDStruct : Serialization (list PoD.PoDStruct).
Variable binary_PoDChild : Serialization (list PoD.PoDChild).
Variable uninitialized : PoD.PoDStruct.

Local Abbreviation Proc := (Process mt19937).

Lemma emits_ret {A} (a : A) (p : Proc) : emits (ret a) p [].
Proof.
  exists []. split; [reflexivity|]. split; [constructor|].
  unfold ret, blocks. cbn. rewrite app_nil_r. reflexivity.
Qed.

Lemma emits_bind {A C} (m : State Proc A) (k : A -> State Proc C) (p : Proc)
    (n1 n2 : list string) :
  emits m p n1 ->
  (forall a, emits (k a) (snd (m p)) n2) ->
  emits (bind m k) p (n1 ++ n2).
Proof.
  unfold emits, bind. intros (b1 & L1 & F1 & E1) Hk.
  destruct (m p) as [a p1]. cbn [snd] in *.
  destruct (Hk a) as (b2 & L2 & F2 & E2).
  exists (b1 ++ b2).
  split; [rewrite !length_app; congruence|].
  split; [apply Forall_app; split; assumption|].
  rewrite E2, E1, blocks_app, app_assoc by congruence. reflexivity.
Qed.

Lemma emits_call_test {DataT} `{DefaultConstructible DataT}
    (binary : Serialization DataT) (view : DataT -> Payload)
    (name : string) (data : DataT) (p : Proc) :
  emits (call_test now ticks_per_ms mt19937 binary view name data) p [name].
Proof.
  unfold emits, call_test. rewrite test_eq. cbv zeta. cbn [snd world cout].
  eexists [_]. split; [reflexivity|]. split; [|unfold blocks; cbn [combine flat_map fst snd];
    rewrite app_nil_r; reflexivity].
  constructor; [reflexivity|constructor].
Qed.

Lemma emits_vectorDoubleTest (s : N) (p : Proc) :
  emits (vectorDoubleTest now ticks_per_ms mt19937 uniform_real_distribution
           binary_double s false) p
        [("Vector(double) size " ++ string_of_size_t s)%string].
Proof. apply (emits_call_test binary_double VectorDouble). Qed.

Lemma emits_vectorCharTest (s : N) (p : Proc) :
  emits (vectorCharTest now ticks_per_ms mt19937 uniform_int_distribution
           binary_uint8 s false) p
        [("Vector(uint8_t) size " ++ string_of_size_t s)%string].
Proof. apply (emits_call_test binary_uint8 VectorUInt8). Qed.

Lemma emits_vectorPoDStructTest (s : N) (p : Proc) :
  emits (vectorPoDStructTest now ticks_per_ms mt19937 binary_PoDStruct s) p
        [("Vector(PoDStruct) size " ++ string_of_size_t s)%string].
Proof. apply (emits_call_test binary_PoDStruct VectorPoDStruct). Qed.

Lemma emits_vectorPoDChildTest (s : N) (p : Proc) :
  emits (vectorPoDChildTest now ticks_per_ms mt19937 binary_PoDChild uninitialized s) p
        [("Vector(PoDChild) size " ++ string_of_size_t s)%string].
Proof. apply (emits_call_test binary_PoDChild VectorPoDChild). Qed.

Ltac emit lem := eapply (emits_bind _ _ _ [_] _); [apply lem|intros _].

Lemma emits_main_body (p : Proc) :
  emits (main_body now ticks_per_ms mt19937 uniform_int_distribution
           uniform_real_distribution binary_double binary_uint8
           binary_PoDStruct binary_PoDChild uninitialized)
        p matrix_names.
Proof.
  unfold main_body. cbv zeta.
  change (to_size_t 1) with 1%N.
  change (to_size_t 16) with 16%N.
  change (to_size_t 64) with 64%N.
  change (to_size_t 1024) with 1024%N.
  change (to_size_t (int_mul 1024 1024)) with 1048576%N.
  change (to_size_t (int_mul (int_mul 1024 1024) 1024)) with 1073741824%N.
  change (to_size_t (int_mul (int_mul 1024 1024) 64)) with 67108864%N.
  change (to_size_t (int_mul 1024 64)) with 65536%N.
  unfold matrix_names.
  do 4 emit emits_vectorDoubleTest.
  emit emits_vectorCharTest.
  do 5 emit emits_vectorPoDStructTest.
  emit emits_vectorPoDChildTest.
  apply emits_ret.
Qed.

(** X14: [main] appends to standard output eleven blocks, one per test
    and in the order of the benchmark matrix.  Each block is the header
    naming its test followed by the twelve items of its report: 187
    items in all, and nothing between or after the blocks. *)
Theorem main_prints_blocks (rd : Z) (w : World) :
  let p := snd (main now ticks_per_ms mt19937 seed_mt19937 uniform_int_distribution
                     uniform_real_distribution binary_double binary_uint8
                     binary_PoDStruct binary_PoDChild uninitialized rd w) in
  (exists bodies : list (list Output),
      List.length bodies = 11%nat /\
      Forall (fun b => List.length b = 12%nat) bodies /\
      cout (world _ p) = cout w ++ blocks matrix_names bodies) /\
  List.length (cout (world _ p)) = (List.length (cout w) + 187)%nat.
Proof.
  cbv zeta. unfold main.
  destruct (emits_main_body (mkProcess mt19937 w (seed_mt19937 rd) 0 []))
    as (bodies & L & F & E).
  cbn [world] in E. split.
  - exists bodies. split; [exact L|]. split; [exact F|exact E].
  - rewrite E, length_app, (length_blocks _ _ L F). reflexivity.
Qed.

End DriverOutput.
(** ** Concrete runs of the further properties *)

Section ExtraRuns.

Import Fixture.

Lemma loaded_payloads_round_trip_witness :
  round_trips (boost binary) [1; 2; 3] /\
  round_trips (cereal binary) [1; 2; 3] /\
  loaded_payloads
    (calls (totals (fst (test paced ns_per_ms binary "trip" [1; 2; 3] 2 true start))))
  = [[1; 2; 3]; [1; 2; 3]; [1; 2; 3]; [1; 2; 3]].
Proof.
  assert (HB : round_trips (boost binary) [1; 2; 3]) by reflexivity.
  assert (HC : round_trips (cereal binary) [1; 2; 3]) by reflexivity.
  split; [exact HB|]. split; [exact HC|].
  apply (loaded_payloads_round_trip paced ns_per_ms binary "trip" [1; 2; 3] 2 true
           start HB HC).
Defined.

Lemma steady_monotone : monotone steady.
Proof. intros k. unfold steady. rewrite N2Z.inj_succ. lia. Defined.

Lemma totals_within_wall_time_witness :
  0 < ns_per_ms /\
  monotone steady /\
  (1 <= 3)%N /\ 0 <= steady 0 /\ steady 23 < 2 ^ 63 /\
  ns_per_ms *
    (let t := totals (fst (test steady ns_per_ms binary "wall" [1; 2; 3] 3 false start)) in
     totalBoostSave t + totalBoostLoad t + totalCerealSave t + totalCerealLoad t)
  <= steady 23 - steady 0.
Proof.
  assert (Ht : 0 < ns_per_ms) by reflexivity.
  assert (Hn : (1 <= 3)%N) by lia.
  assert (Hlo : 0 <= steady 0) by (vm_compute; discriminate).
  assert (Hhi : steady 23 < 2 ^ 63) by reflexivity.
  split; [exact Ht|]. split; [exact steady_monotone|].
  split; [exact Hn|]. split; [exact Hlo|]. split; [exact Hhi|].
  destruct (totals_within_wall_time steady ns_per_ms binary Ht steady_monotone
              "wall" [1; 2; 3] 3 false start Hn Hlo Hhi) as (_ & _ & _ & _ & Hsum).
  exact Hsum.
Defined.

Lemma frozen_sub_millisecond : sub_millisecond frozen ns_per_ms.
Proof. intros k. unfold frozen, ns_per_ms. lia. Defined.

Lemma sub_millisecond_report_witness :
  sub_millisecond frozen ns_per_ms /\
  (0 < 10)%N /\
  cerealSaveP (fst (test frozen ns_per_ms binary "fast" [1; 2; 3] 10 false start))
  = Double.nan.
Proof.
  assert (Hn : (0 < 10)%N) by lia.
  split; [exact frozen_sub_millisecond|]. split; [exact Hn|].
  destruct (sub_millisecond_report frozen ns_per_ms binary frozen_sub_millisecond
              "fast" [1; 2; 3] 10 false start Hn) as (_ & _ & Hs & _).
  exact Hs.
Defined.

Lemma equal_sizes_ratio_one_witness :
  (1 <= 2)%N /\
  cerealSizeP (fst (test paced ns_per_ms binary_raw "same" [1; 2; 3] 2 false start))
  = Double.one.
Proof.
  assert (Hn : (1 <= 2)%N) by lia.
  split; [exact Hn|].
  apply (equal_sizes_ratio_one paced ns_per_ms binary_raw "same" [1; 2; 3] 2 false
           start Hn).
  - reflexivity.
  - vm_compute. split; reflexivity.
Defined.

Lemma random_binary_string_digits_witness :
  String.length (fst (random_binary_string lcg lcg_uniform_int 8 12345)) = 8%nat.
Proof.
  destruct (random_binary_string_digits lcg lcg_uniform_int lcg_uniform_int_range
              8 12345) as (Hlen & _).
  exact Hlen.
Defined.


Lemma fields_lawful : all_lawful Fields.codecs.
Proof. repeat split; intros x rest; reflexivity. Defined.

Lemma PoDStruct_round_trip_witness :
  PoDStruct_serialize (input_archive Fields.codecs)
    [Fields.Int32 7; Fields.Int64 (-9); Fields.Float (S754_zero true);
     Fields.Double Double.one; Fields.Int32 1]
    PoDStruct_zero
  = Some ([Fields.Int32 1], sample_PoDStruct).
Proof.
  destruct (PoDStruct_round_trip Fields.codecs fields_lawful 0
              sample_PoDStruct PoDStruct_zero [] [Fields.Int32 1])
    as (written & Hsave & _ & Hload & _).
  cbn in Hsave. injection Hsave as Hsave. subst written. exact Hload.
Defined.

Lemma PoDChild_round_trip_version_witness :
  exists written,
    PoDChild_serialize_version (input_archive Fields.codecs) 0 written 0
      (PoDChild_ctor PoDStruct_zero)
    = Some ([], sample_PoDChild).
Proof.
  destruct (PoDChild_round_trip_version Fields.codecs fields_lawful 0 0
              sample_PoDChild (PoDChild_ctor PoDStruct_zero) [] [])
    as (written & _ & Hload).
  exists (written ++ []). exact Hload.
Defined.

Lemma PoDChild_round_trip_loses_base_witness :
  exists written,
    PoDChild_serialize (input_archive Fields.codecs) written
      (PoDChild_ctor PoDStruct_zero)
    = Some ([], PoD.mkPoDChild PoDStruct_zero (PoD.v sample_PoDChild)).
Proof.
  destruct (PoDChild_round_trip_loses_base Fields.codecs fields_lawful
              sample_PoDChild (PoDChild_ctor PoDStruct_zero) [] [])
    as (written & _ & Hload & _).
  exists (written ++ []). exact Hload.
Defined.

End ExtraRuns.

(** ** The harness on adapters that keep state *)

Section StatefulFacts.

Variable now : N -> Z.
Variable ticks_per_ms : Z.
Context {L DataT : Type} `{DefaultConstructible DataT}.
Variable S : Stateful.Serialization L DataT.
Variable data : DataT.

Local Abbreviation elapsed := (elapsed_ms now ticks_per_ms).
Local Abbreviation run_loop := (Stateful.loop now ticks_per_ms S data).
Local Abbreviation pass := (Stateful.pass_calls now ticks_per_ms S data).
Local Abbreviation passes := (Stateful.passes_calls now ticks_per_ms S data).
Local Abbreviation state_after := (Stateful.passes_state S data).

Lemma stateful_iteration_eq (v : bool) (t : Totals DataT) (w : World) (l : L) :
  Stateful.iteration now ticks_per_ms S data v t (w, l) =
  (mkTotals (totalBoostSave t + elapsed (clock_reads w))
            (totalBoostLoad t + elapsed (clock_reads w + 2)%N)
            (totalCerealSave t + elapsed (clock_reads w + 4)%N)
            (totalCerealLoad t + elapsed (clock_reads w + 6)%N)
            (if (boostSize t =? 0)%N then tellp (Stateful.boost_stream S data l)
             else boostSize t)
            (if (cerealSize t =? 0)%N then tellp (Stateful.cereal_stream S data l)
             else cerealSize t)
            (calls t ++ pass (clock_reads w) l),
   (mkWorld (clock_reads w + 8) (cout w), Stateful.pass_state S data l)).
Proof.
  destruct w as [k out].
  unfold Stateful.pass_calls, Stateful.pass_state, Stateful.cereal_loaded,
    Stateful.after_cereal_save, Stateful.cereal_stream, Stateful.after_boost_load,
    Stateful.boost_loaded, Stateful.after_boost_save, Stateful.boost_stream, elapsed_ms.
  replace (clock_reads (mkWorld k out) + 2)%N with (N.succ (N.succ k)) by (cbn; lia).
  replace (clock_reads (mkWorld k out) + 4)%N
    with (N.succ (N.succ (N.succ (N.succ k)))) by (cbn; lia).
  replace (clock_reads (mkWorld k out) + 6)%N
    with (N.succ (N.succ (N.succ (N.succ (N.succ (N.succ k)))))) by (cbn; lia).
  replace (clock_reads (mkWorld k out) + 8)%N
    with (N.succ (N.succ (N.succ (N.succ (N.succ (N.succ (N.succ (N.succ k))))))))
    by (cbn; lia).
  unfold Stateful.iteration, Stateful.saveData, Stateful.loadData, Stateful.in_world,
    Stateful.invoke, bind, clock_now, ret.
  cbn [fst snd clock_reads cout].
  destruct (Stateful.save (Stateful.boost S) l empty_ostringstream data) as [l1 os1].
  cbn [fst snd].
  destruct (Stateful.load (Stateful.boost S) l1 (str os1) default_value) as [l2 d2].
  cbn [fst snd].
  destruct v.
  - cbn [fst snd].
    destruct (Stateful.save (Stateful.cereal S) l2 empty_ostringstream data) as [l3 os3].
    cbn [fst snd].
    destruct (Stateful.load (Stateful.cereal S) l3 (str os3) default_value) as [l4 d4].
    cbn [fst snd]. rewrite <- app_assoc. reflexivity.
  - cbn [fst snd].
    destruct (Stateful.save (Stateful.cereal S) l2 empty_ostringstream data) as [l3 os3].
    cbn [fst snd].
    destruct (Stateful.load (Stateful.cereal S) l3 (str os3) default_value) as [l4 d4].
    cbn [fst snd]. rewrite <- app_assoc. reflexivity.
Qed.

Lemma stateful_loop_zero (v : bool) (s : World * L) :
  run_loop 0%N v s = (initial_totals, s).
Proof. reflexivity. Qed.

Lemma stateful_loop_succ (n : N) (v : bool) (s : World * L) :
  run_loop (N.succ n) v s =
  Stateful.iteration now ticks_per_ms S data v (fst (run_loop n v s)) (snd (run_loop n v s)).
Proof. unfold Stateful.loop. rewrite N.iter_succ. reflexivity. Qed.

Lemma passes_state_succ (n : nat) (l : L) :
  state_after (Datatypes.S n) l = Stateful.pass_state S data (state_after n l).
Proof.
  revert l. induction n as [|n IH]; intros l; [reflexivity|].
  change (state_after (Datatypes.S (Datatypes.S n)) l)
    with (state_after (Datatypes.S n) (Stateful.pass_state S data l)).
  rewrite IH. reflexivity.
Qed.

Lemma passes_calls_succ (n : nat) (k : N) (l : L) :
  passes (Datatypes.S n) k l =
  passes n k l ++ pass (k + 8 * N.of_nat n)%N (state_after n l).
Proof.
  revert k l. induction n as [|n IH]; intros k l.
  - cbn [Stateful.passes_calls Stateful.passes_state app]. rewrite app_nil_r.
    f_equal. lia.
  - change (passes (Datatypes.S (Datatypes.S n)) k l)
      with (pass k l ++ passes (Datatypes.S n) (k + 8)%N (Stateful.pass_state S data l)).
    rewrite IH. cbn [Stateful.passes_calls Stateful.passes_state].
    rewrite <- app_assoc. do 3 f_equal. lia.
Qed.

(** Each pass reads the clock eight times, prints nothing and leaves
    the adapters in the state the fourth call left. *)
Lemma stateful_loop_state (n : N) (v : bool) (w : World) (l : L) :
  snd (run_loop n v (w, l)) =
  (mkWorld (clock_reads w + 8 * n) (cout w), state_after (N.to_nat n) l).
Proof.
  induction n as [|n IH] using N.peano_ind.
  - rewrite stateful_loop_zero. destruct w as [k out]. cbn. do 2 f_equal. lia.
  - rewrite stateful_loop_succ, IH, stateful_iteration_eq. cbn [snd clock_reads cout].
    rewrite N2Nat.inj_succ, passes_state_succ. do 2 f_equal. lia.
Qed.

Lemma stateful_loop_calls (n : N) (v : bool) (w : World) (l : L) :
  calls (fst (run_loop n v (w, l))) = passes (N.to_nat n) (clock_reads w) l.
Proof.
  induction n as [|n IH] using N.peano_ind.
  - reflexivity.
  - rewrite stateful_loop_succ, stateful_loop_state, stateful_iteration_eq.
    cbn [fst calls clock_reads]. rewrite IH, N2Nat.inj_succ, passes_calls_succ.
    rewrite N2Nat.id. reflexivity.
Qed.

Lemma stateful_loop_validateData (n : N) (s : World * L) :
  run_loop n true s = run_loop n false s.
Proof.
  induction n as [|n IH] using N.peano_ind.
  - reflexivity.
  - rewrite !stateful_loop_succ, IH.
    destruct (run_loop n false s) as [t [w l]]. cbn [fst snd].
    rewrite !stateful_iteration_eq. reflexivity.
Qed.

Lemma save_sizes_app {T} (lib : Library) (l1 l2 : list (Call T)) :
  save_sizes lib (l1 ++ l2) = save_sizes lib l1 ++ save_sizes lib l2.
Proof. apply flat_map_app. Qed.

Lemma first_nonzero_app (l1 l2 : list N) :
  first_nonzero (l1 ++ l2) =
  if (first_nonzero l1 =? 0)%N then first_nonzero l2 else first_nonzero l1.
Proof.
  induction l1 as [|x l1 IH]; [reflexivity|].
  cbn [app first_nonzero]. destruct (x =? 0)%N eqn:E; [exact IH|]. rewrite E. reflexivity.
Qed.

Lemma first_nonzero_one (x : N) : first_nonzero [x] = x.
Proof.
  cbn. destruct (x =? 0)%N eqn:E; [|reflexivity]. apply N.eqb_eq in E. congruence.
Qed.

Lemma boost_sizes_of_calls (n : nat) (k : N) (l : L) :
  save_sizes Boost (passes n k l) = Stateful.boost_sizes S data n l.
Proof.
  unfold Stateful.boost_sizes. revert k l. induction n as [|n IH]; intros k l.
  - reflexivity.
  - cbn [Stateful.passes_calls]. rewrite save_sizes_app, IH.
    rewrite <- cons_seq, <- seq_shift, map_cons, map_map. reflexivity.
Qed.

Lemma cereal_sizes_of_calls (n : nat) (k : N) (l : L) :
  save_sizes Cereal (passes n k l) = Stateful.cereal_sizes S data n l.
Proof.
  unfold Stateful.cereal_sizes. revert k l. induction n as [|n IH]; intros k l.
  - reflexivity.
  - cbn [Stateful.passes_calls]. rewrite save_sizes_app, IH.
    rewrite <- cons_seq, <- seq_shift, map_cons, map_map. reflexivity.
Qed.

(** What the guards [if(!boostSize)] and [if(!cerealSize)] leave. *)
Lemma stateful_loop_boostSize (n : N) (v : bool) (w : World) (l : L) :
  boostSize (fst (run_loop n v (w, l))) =
  first_nonzero (Stateful.boost_sizes S data (N.to_nat n) l).
Proof.
  rewrite <- (boost_sizes_of_calls _ (clock_reads w)).
  induction n as [|n IH] using N.peano_ind.
  - reflexivity.
  - rewrite N2Nat.inj_succ, passes_calls_succ, save_sizes_app, first_nonzero_app, <- IH.
    rewrite stateful_loop_succ, stateful_loop_state, stateful_iteration_eq.
    cbn [fst boostSize]. unfold Stateful.pass_calls. cbn [save_sizes flat_map Library_eqb app].
    rewrite first_nonzero_one. reflexivity.
Qed.

Lemma stateful_loop_cerealSize (n : N) (v : bool) (w : World) (l : L) :
  cerealSize (fst (run_loop n v (w, l))) =
  first_nonzero (Stateful.cereal_sizes S data (N.to_nat n) l).
Proof.
  rewrite <- (cereal_sizes_of_calls _ (clock_reads w)).
  induction n as [|n IH] using N.peano_ind.
  - reflexivity.
  - rewrite N2Nat.inj_succ, passes_calls_succ, save_sizes_app, first_nonzero_app, <- IH.
    rewrite stateful_loop_succ, stateful_loop_state, stateful_iteration_eq.
    cbn [fst cerealSize]. unfold Stateful.pass_calls. cbn [save_sizes flat_map Library_eqb app].
    rewrite first_nonzero_one. reflexivity.
Qed.

(** A size that is not zero stays as it is in every later pass. *)
Lemma stateful_loop_sizes_kept (k j : N) (v : bool) (s : World * L) :
  (boostSize (fst (run_loop k v s)) <> 0%N ->
   boostSize (fst (run_loop (k + j) v s)) = boostSize (fst (run_loop k v s))) /\
  (cerealSize (fst (run_loop k v s)) <> 0%N ->
   cerealSize (fst (run_loop (k + j) v s)) = cerealSize (fst (run_loop k v s))).
Proof.
  induction j as [|j [IHb IHc]] using N.peano_ind.
  - rewrite N.add_0_r. split; reflexivity.
  - rewrite N.add_succ_r, stateful_loop_succ.
    destruct (run_loop (k + j) v s) as [t [w l]]. cbn [fst snd] in *.
    rewrite stateful_iteration_eq. cbn [fst boostSize cerealSize].
    split; intros Hk.
    + rewrite (IHb Hk). apply N.eqb_neq in Hk. rewrite Hk. reflexivity.
    + rewrite (IHc Hk). apply N.eqb_neq in Hk. rewrite Hk. reflexivity.
Qed.

(** [test], with the loop factored out. *)
Lemma stateful_test_eq (name : string) (n : N) (v : bool) (w : World) (l : L) :
  Stateful.test now ticks_per_ms S name data n v (w, l) =
  let r := report_of n
             (fst (run_loop n v (mkWorld (clock_reads w) (cout w ++ header name), l))) in
  (r, (mkWorld (clock_reads w + 8 * n) (cout w ++ header name ++ report_lines r),
       state_after (N.to_nat n) l)).
Proof.
  unfold Stateful.test, Stateful.in_world, print_report, bind, print, ret, header,
    report_lines.
  cbn [clock_reads cout fst snd]. cbv zeta.
  rewrite <- !app_assoc. cbn [app].
  match goal with |- context [Stateful.loop _ _ _ _ ?n ?v (?w', ?l')] =>
    pose proof (stateful_loop_state n v w' l') as Hw;
    destruct (Stateful.loop now ticks_per_ms S data n v (w', l')) as [t s'] end.
  cbn [snd clock_reads cout] in Hw. subst s'. cbn [clock_reads cout fst snd].
  rewrite <- !app_assoc. reflexivity.
Qed.

Lemma stateful_test_totals (name : string) (n : N) (v : bool) (w : World) (l : L) :
  totals (fst (Stateful.test now ticks_per_ms S name data n v (w, l))) =
  fst (run_loop n v (mkWorld (clock_reads w) (cout w ++ header name), l)).
Proof. rewrite stateful_test_eq. reflexivity. Qed.

End StatefulFacts.

(** *** Adapters without state

    On adapters that keep no state the harness above is the harness on
    pure adapters: same report, same clock reads, same output, and the
    state handed in comes back untouched. *)

Section Refinement.

Variable now : N -> Z.
Variable ticks_per_ms : Z.
Context {L DataT : Type} `{DefaultConstructible DataT}.
Variable S : Serialization DataT.

Lemma stateless_passes_state (data : DataT) (n : nat) (l : L) :
  Stateful.passes_state (stateless S) data n l = l.
Proof. induction n as [|n IH]; [reflexivity|exact IH]. Qed.

Lemma stateless_loop (data : DataT) (n : N) (v : bool) (w : World) (l : L) :
  Stateful.loop now ticks_per_ms (stateless S) data n v (w, l) =
  (fst (loop now ticks_per_ms S data n v w), (snd (loop now ticks_per_ms S data n v w), l)).
Proof.
  induction n as [|n IH] using N.peano_ind.
  - reflexivity.
  - rewrite stateful_loop_succ, loop_succ, IH. cbn [fst snd].
    rewrite stateful_iteration_eq, iteration_eq. reflexivity.
Qed.

Lemma stateless_test (name : string) (data : DataT) (n : N) (v : bool)
    (w : World) (l : L) :
  Stateful.test now ticks_per_ms (stateless S) name data n v (w, l) =
  (fst (test now ticks_per_ms S name data n v w),
   (snd (test now ticks_per_ms S name data n v w), l)).
Proof.
  rewrite stateful_test_eq, test_eq, stateless_loop, stateless_passes_state.
  reflexivity.
Qed.

End Refinement.

(** *** The sizes recorded *)

Lemma first_nonzero_all (x : N) (l : list N) :
  l <> [] -> (forall y, In y l -> y = x) -> first_nonzero l = x.
Proof.
  induction l as [|y l IH]; [congruence|]. intros _ Hall.
  assert (Hy : y = x) by (apply Hall; left; reflexivity). subst y.
  cbn [first_nonzero]. destruct (x =? 0)%N eqn:E; [|reflexivity].
  destruct l as [|z l]; [apply N.eqb_eq in E; cbn; congruence|].
  apply IH; [discriminate|]. intros y Hy. apply Hall. right. exact Hy.
Qed.

Section SizesRecorded.

Variable now : N -> Z.
Variable ticks_per_ms : Z.
Context {L DataT : Type} `{DefaultConstructible DataT}.
Variable S : Stateful.Serialization L DataT.

Local Abbreviation run_test := (Stateful.test now ticks_per_ms S).
Local Abbreviation run_loop := (Stateful.loop now ticks_per_ms S).

(** C4, as the code has it: the guards are [if(!boostSize)] and
    [if(!cerealSize)], so a size is taken for as long as the recorded
    one is zero.  For [numAverages >= 1] and adapters found in state
    [l], the calls logged are the calls of the passes, each made in the
    state the call before left; the size recorded for an adapter is the
    first size that is not zero among the sizes of the streams its saves
    left, pass by pass, and zero if there is none; it is the size of the
    first pass when that size is not zero, and when every pass leaves a
    stream of the size of the first; and a recorded size that is not zero
    is not changed by any later pass. *)
Theorem size_recorded_is_first_nonzero
    (name : string) (data : DataT) (numAverages : N) (v : bool) (w : World) (l : L) :
  (1 <= numAverages)%N ->
  let r := fst (run_test name data numAverages v (w, l)) in
  let n := N.to_nat numAverages in
  let s0 := (mkWorld (clock_reads w) (cout w ++ header name), l) in
  calls (totals r) =
    Stateful.passes_calls now ticks_per_ms S data n (clock_reads w) l /\
  boostSize (totals r) = first_nonzero (Stateful.boost_sizes S data n l) /\
  cerealSize (totals r) = first_nonzero (Stateful.cereal_sizes S data n l) /\
  (tellp (Stateful.boost_stream S data l) <> 0%N ->
   boostSize (totals r) = tellp (Stateful.boost_stream S data l)) /\
  (tellp (Stateful.cereal_stream S data l) <> 0%N ->
   cerealSize (totals r) = tellp (Stateful.cereal_stream S data l)) /\
  ((forall i, (i < n)%nat ->
      tellp (Stateful.boost_stream S data (Stateful.passes_state S data i l)) =
      tellp (Stateful.boost_stream S data l)) ->
   boostSize (totals r) = tellp (Stateful.boost_stream S data l)) /\
  ((forall i, (i < n)%nat ->
      tellp (Stateful.cereal_stream S data (Stateful.passes_state S data i l)) =
      tellp (Stateful.cereal_stream S data l)) ->
   cerealSize (totals r) = tellp (Stateful.cereal_stream S data l)) /\
  (forall k j : N,
      boostSize (fst (run_loop data k v s0)) <> 0%N ->
      boostSize (fst (run_loop data (k + j) v s0)) = boostSize (fst (run_loop data k v s0))) /\
  (forall k j : N,
      cerealSize (fst (run_loop data k v s0)) <> 0%N ->
      cerealSize (fst (run_loop data (k + j) v s0)) =
      cerealSize (fst (run_loop data k v s0))).
Proof.
  intros Hn r n s0. subst r s0. rewrite stateful_test_totals.
  rewrite stateful_loop_calls, stateful_loop_boostSize, stateful_loop_cerealSize.
  cbn [clock_reads]. fold n.
  assert (Hpos : exists m, n = Datatypes.S m).
  { destruct n as [|m] eqn:E; [subst n; lia|]. exists m. reflexivity. }
  destruct Hpos as [m Hm]. clearbody n. subst n.
  split; [reflexivity|]. split; [reflexivity|]. split; [reflexivity|].
  split.
  { intros Hb. unfold Stateful.boost_sizes. rewrite <- cons_seq. cbn [map first_nonzero].
    cbn [Stateful.passes_state]. apply N.eqb_neq in Hb. rewrite Hb. reflexivity. }
  split.
  { intros Hc. unfold Stateful.cereal_sizes. rewrite <- cons_seq. cbn [map first_nonzero].
    cbn [Stateful.passes_state]. apply N.eqb_neq in Hc. rewrite Hc. reflexivity. }
  split.
  { intros Hall. apply first_nonzero_all.
    - unfold Stateful.boost_sizes. rewrite <- cons_seq. discriminate.
    - intros y Hy. unfold Stateful.boost_sizes in Hy. apply in_map_iff in Hy.
      destruct Hy as (i & <- & Hi). apply in_seq in Hi. apply Hall. lia. }
  split.
  { intros Hall. apply first_nonzero_all.
    - unfold Stateful.cereal_sizes. rewrite <- cons_seq. discriminate.
    - intros y Hy. unfold Stateful.cereal_sizes in Hy. apply in_map_iff in Hy.
      destruct Hy as (i & <- & Hi). apply in_seq in Hi. apply Hall. lia. }
  split.
  - intros k j. apply (stateful_loop_sizes_kept now ticks_per_ms S data k j v).
  - intros k j. apply (stateful_loop_sizes_kept now ticks_per_ms S data k j v).
Qed.

End SizesRecorded.

(** C4, as stated, fails: an adapter whose first save leaves an empty
    stream and whose later saves leave one byte.  After one pass the
    size recorded for boost is 0; in a run of two passes it is 1, the
    size seen in the second pass, while the stream of the first pass
    (call number 0 of the log) has size 0. *)
Lemma size_recorded_after_first_iteration :
  let run (n : N) :=
    totals (fst (Stateful.test Fixture.frozen Fixture.ns_per_ms late
                               "late" [1; 2; 3] n false (Fixture.start, 0%N))) in
  nth_error (calls (run 2%N)) 0 = Some (SaveCall Boost [1; 2; 3] empty_ostringstream 0) /\
  tellp empty_ostringstream = 0%N /\
  boostSize (run 1%N) = 0%N /\
  boostSize (run 2%N) = 1%N /\
  save_sizes Boost (calls (run 2%N)) = [0%N; 1%N].
Proof.
  cbv zeta.
  split; [vm_compute; reflexivity|].
  split; [reflexivity|].
  split; [vm_compute; reflexivity|].
  split; [vm_compute; reflexivity|].
  vm_compute; reflexivity.
Qed.

Lemma size_recorded_is_first_nonzero_witness :
  (1 <= 3)%N /\
  tellp (Stateful.cereal_stream late [1; 2; 3] 0%N) <> 0%N /\
  cerealSize (totals (fst (Stateful.test Fixture.paced Fixture.ns_per_ms late
                                         "late" [1; 2; 3] 3 false (Fixture.start, 0%N))))
  = 1%N.
Proof.
  assert (Hn : (1 <= 3)%N) by lia.
  assert (Hc : tellp (Stateful.cereal_stream late [1; 2; 3] 0%N) <> 0%N)
    by (vm_compute; discriminate).
  split; [exact Hn|]. split; [exact Hc|].
  destruct (size_recorded_is_first_nonzero Fixture.paced Fixture.ns_per_ms late
              "late" [1; 2; 3] 3 false Fixture.start 0%N Hn)
    as (_ & _ & _ & _ & Hsize & _).
  rewrite (Hsize Hc). reflexivity.
Defined.

(** *** The calls counted *)

Lemma add_calls_zero (c : Counters) : add_calls 0 c = c.
Proof. destruct c. unfold add_calls. cbn. rewrite !N.add_0_r. reflexivity. Qed.

Lemma add_calls_succ (n : N) (c : Counters) :
  bump_cereal_loads (bump_cereal_saves (bump_boost_loads (bump_boost_saves (add_calls n c))))
  = add_calls (N.succ n) c.
Proof.
  destruct c.
  unfold add_calls, bump_cereal_loads, bump_cereal_saves, bump_boost_loads, bump_boost_saves.
  cbn [boost_saves boost_loads cereal_saves cereal_loads]. f_equal; lia.
Qed.

Section CallsCounted.

Variable now : N -> Z.
Variable ticks_per_ms : Z.
Context {L DataT : Type} `{DefaultConstructible DataT}.
Variable S : Stateful.Serialization L DataT.

(** A pass on the counted adapters is the pass on the adapters, with
    each counter one higher after it. *)
Lemma counted_pass (data : DataT) (k : N) (l : L) (c : Counters) :
  Stateful.boost_stream (counted S) data (l, c) = Stateful.boost_stream S data l /\
  Stateful.cereal_stream (counted S) data (l, c) = Stateful.cereal_stream S data l /\
  Stateful.pass_calls now ticks_per_ms (counted S) data k (l, c) =
    Stateful.pass_calls now ticks_per_ms S data k l /\
  Stateful.pass_state (counted S) data (l, c) =
    (Stateful.pass_state S data l,
     bump_cereal_loads (bump_cereal_saves (bump_boost_loads (bump_boost_saves c)))).
Proof.
  unfold Stateful.pass_calls, Stateful.pass_state, Stateful.cereal_loaded,
    Stateful.after_cereal_save, Stateful.cereal_stream, Stateful.after_boost_load,
    Stateful.boost_loaded, Stateful.after_boost_save, Stateful.boost_stream.
  cbn [counted Stateful.boost Stateful.cereal Stateful.save Stateful.load].
  unfold counted_save, counted_load. cbn [fst snd].
  destruct (Stateful.save (Stateful.boost S) l empty_ostringstream data) as [l1 os1].
  cbn [fst snd].
  destruct (Stateful.load (Stateful.boost S) l1 (str os1) default_value) as [l2 d2].
  cbn [fst snd].
  destruct (Stateful.save (Stateful.cereal S) l2 empty_ostringstream data) as [l3 os3].
  cbn [fst snd].
  destruct (Stateful.load (Stateful.cereal S) l3 (str os3) default_value) as [l4 d4].
  cbn [fst snd].
  split; [reflexivity|]. split; [reflexivity|]. split; reflexivity.
Qed.

Lemma counted_loop (data : DataT) (n : N) (v : bool) (w : World) (l : L) (c : Counters) :
  Stateful.loop now ticks_per_ms (counted S) data n v (w, (l, c)) =
  (fst (Stateful.loop now ticks_per_ms S data n v (w, l)),
   (fst (snd (Stateful.loop now ticks_per_ms S data n v (w, l))),
    (snd (snd (Stateful.loop now ticks_per_ms S data n v (w, l))), add_calls n c))).
Proof.
  induction n as [|n IH] using N.peano_ind.
  - rewrite !stateful_loop_zero, add_calls_zero. reflexivity.
  - rewrite !stateful_loop_succ, IH.
    destruct (Stateful.loop now ticks_per_ms S data n v (w, l)) as [t [w' l']].
    cbn [fst snd]. rewrite !stateful_iteration_eq.
    destruct (counted_pass data (clock_reads w') l' (add_calls n c))
      as (-> & -> & -> & ->).
    cbn [fst snd]. rewrite add_calls_succ. reflexivity.
Qed.

Lemma counted_test (name : string) (data : DataT) (n : N) (v : bool)
    (w : World) (l : L) (c : Counters) :
  Stateful.test now ticks_per_ms (counted S) name data n v (w, (l, c)) =
  (fst (Stateful.test now ticks_per_ms S name data n v (w, l)),
   (fst (snd (Stateful.test now ticks_per_ms S name data n v (w, l))),
    (snd (snd (Stateful.test now ticks_per_ms S name data n v (w, l))), add_calls n c))).
Proof.
  rewrite !stateful_test_eq. cbv zeta.
  pose proof (counted_loop data n v (mkWorld (clock_reads w) (cout w ++ header name)) l c)
    as Hl.
  pose proof (stateful_loop_state now ticks_per_ms (counted S) data n v
                (mkWorld (clock_reads w) (cout w ++ header name)) (l, c)) as Hs.
  rewrite Hl in Hs. cbn [snd] in Hs.
  rewrite stateful_loop_state in Hs. cbn [fst snd] in Hs.
  injection Hs as Hs. rewrite <- Hs, Hl. reflexivity.
Qed.

Lemma passes_count_save (lib : Library) (data : DataT) (n : nat) (k : N) (l : L) :
  count (is_save lib) (Stateful.passes_calls now ticks_per_ms S data n k l) = n.
Proof.
  revert k l. induction n as [|n IH]; intros k l; [reflexivity|].
  cbn [Stateful.passes_calls]. rewrite count_app, IH. destruct lib; reflexivity.
Qed.

Lemma passes_count_load (lib : Library) (data : DataT) (n : nat) (k : N) (l : L) :
  count (is_load lib) (Stateful.passes_calls now ticks_per_ms S data n k l) = n.
Proof.
  revert k l. induction n as [|n IH]; intros k l; [reflexivity|].
  cbn [Stateful.passes_calls]. rewrite count_app, IH. destruct lib; reflexivity.
Qed.

(** C5: with a counter on each of the four functions handed to [test]
    (boost save, boost load, cereal save, cereal load; whatever the
    functions do and whatever state they keep), one call of [test] with
    [numAverages = N > 0] raises each counter by exactly [N].  The
    counters change nothing else: report, clock reads, output and the
    state of the adapters are those of the run without counters; and the
    log of the run has [N] calls of each of the four. *)
Theorem test_call_counts
    (name : string) (data : DataT) (numAverages : N) (v : bool)
    (w : World) (l : L) (c : Counters) :
  (0 < numAverages)%N ->
  let counted_run :=
    Stateful.test now ticks_per_ms (counted S) name data numAverages v (w, (l, c)) in
  let run := Stateful.test now ticks_per_ms S name data numAverages v (w, l) in
  let c' := snd (snd (snd counted_run)) in
  let log := calls (totals (fst run)) in
  boost_saves c' = (boost_saves c + numAverages)%N /\
  boost_loads c' = (boost_loads c + numAverages)%N /\
  cereal_saves c' = (cereal_saves c + numAverages)%N /\
  cereal_loads c' = (cereal_loads c + numAverages)%N /\
  fst counted_run = fst run /\
  fst (snd counted_run) = fst (snd run) /\
  fst (snd (snd counted_run)) = snd (snd run) /\
  count (is_save Boost) log = N.to_nat numAverages /\
  count (is_load Boost) log = N.to_nat numAverages /\
  count (is_save Cereal) log = N.to_nat numAverages /\
  count (is_load Cereal) log = N.to_nat numAverages.
Proof.
  intros _ counted_run run c' log. subst c' log counted_run run.
  rewrite counted_test. cbn [fst snd add_calls boost_saves boost_loads
    cereal_saves cereal_loads].
  rewrite stateful_test_totals, stateful_loop_calls.
  rewrite !passes_count_save, !passes_count_load.
  split; [reflexivity|]. split; [reflexivity|]. split; [reflexivity|].
  split; [reflexivity|]. split; [reflexivity|]. split; [reflexivity|].
  split; [reflexivity|]. split; [reflexivity|]. split; [reflexivity|].
  split; reflexivity.
Qed.

End CallsCounted.

Lemma test_call_counts_witness :
  (0 < 3)%N /\
  snd (snd (snd (Stateful.test Fixture.paced Fixture.ns_per_ms (counted late)
                               "counts" [1; 2; 3] 3 false
                               (Fixture.start, (0%N, mkCounters 0 0 0 0)))))
  = mkCounters 3 3 3 3.
Proof.
  assert (Hn : (0 < 3)%N) by lia.
  split; [exact Hn|].
  destruct (test_call_counts Fixture.paced Fixture.ns_per_ms late
              "counts" [1; 2; 3] 3 false Fixture.start 0%N (mkCounters 0 0 0 0) Hn)
    as (Hbs & Hbl & Hcs & Hcl & _).
  destruct (snd (snd (snd (Stateful.test Fixture.paced Fixture.ns_per_ms (counted late)
                               "counts" [1; 2; 3] 3 false
                               (Fixture.start, (0%N, mkCounters 0 0 0 0))))))
    as [a b c d].
  cbn [boost_saves boost_loads cereal_saves cereal_loads] in Hbs, Hbl, Hcs, Hcl.
  rewrite Hbs, Hbl, Hcs, Hcl. reflexivity.
Defined.
